(** * saraki/endpoints.py: query-string modifiers, collection pipeline,
      generic item view and route rules

    A shallow embedding of [src/saraki/endpoints.py].  Python dictionaries
    are insertion-ordered association lists, JSON documents are an inductive
    type, a table is the list of its rows, and a view function is a function
    from the request and the table to an outcome and the table afterwards.

    Library functions the module calls (the JSON decoder, Python's [int] and
    [str], the collation order of the database) are variables of the section;
    the rule interpreter of the validator, the pagination of the query object
    and the export of rows are written out below with their origin stated. *)

From Stdlib Require Import String Ascii List ZArith Bool Lia DecimalString.
From Stdlib Require Import Permutation Sorted.
Import ListNotations.
Local Open Scope string_scope.
Local Open Scope Z_scope.
Local Open Scope list_scope.

Set Implicit Arguments.
Set Warnings "-register-all".

(** ** Python dictionaries *)

Module Dict.

Definition t (V : Type) := list (string * V).

Fixpoint get {V} (k : string) (d : t V) : option V :=
  match d with
  | [] => None
  | (k', v) :: d' => if String.eqb k k' then Some v else get k d'
  end.

Definition mem {V} (k : string) (d : t V) : bool :=
  match get k d with Some _ => true | None => false end.

(** [d[k] = v]: an existing key keeps its position, a new key goes last. *)
Fixpoint set {V} (k : string) (v : V) (d : t V) : t V :=
  match d with
  | [] => [(k, v)]
  | (k', v') :: d' =>
      if String.eqb k k' then (k', v) :: d' else (k', v') :: set k v d'
  end.

(** [d.update(e)] *)
Definition update {V} (d e : t V) : t V :=
  fold_left (fun acc kv => set (fst kv) (snd kv) acc) e d.

Definition keys {V} (d : t V) : list string := map fst d.

End Dict.

(** ** JSON values *)

Inductive jval : Type :=
| JNull
| JBool (b : bool)
| JInt (z : Z)
| JStr (s : string)
| JList (l : list jval)
| JObj (o : list (string * jval)).

(** Structural equality; on scalars this is the comparison [column = value]
    that [filter_by] emits ([IS NULL] when the value is [None]). *)
Fixpoint jval_eqb (a b : jval) : bool :=
  match a, b with
  | JNull, JNull => true
  | JBool x, JBool y => Bool.eqb x y
  | JInt x, JInt y => Z.eqb x y
  | JStr x, JStr y => String.eqb x y
  | JList x, JList y =>
      (fix go (x y : list jval) : bool :=
         match x, y with
         | [], [] => true
         | a :: x', b :: y' => jval_eqb a b && go x' y'
         | _, _ => false
         end) x y
  | JObj x, JObj y =>
      (fix go (x y : list (string * jval)) : bool :=
         match x, y with
         | [], [] => true
         | (k, a) :: x', (k', b) :: y' =>
             String.eqb k k' && jval_eqb a b && go x' y'
         | _, _ => false
         end) x y
  | _, _ => false
  end.

(** Python truth value of a decoded JSON value. *)
Definition truthy (v : jval) : bool :=
  match v with
  | JNull => false
  | JBool b => b
  | JInt z => negb (z =? 0)
  | JStr s => negb (String.eqb s "")
  | JList l => match l with [] => false | _ => true end
  | JObj o => match o with [] => false | _ => true end
  end.

Definition mem_string (s : string) (l : list string) : bool :=
  existsb (String.eqb s) l.

(** ** Outcomes of a call *)

(** One validation failure of a field, as the validator records it. *)
Inductive verror : Type :=
| NotNullable
| BadType
| UnallowedValue
| UnknownField
| CoercionFailed
| RequiredField
| Nested (es : list (string * list verror)).

(** The value stored under a field of a [ValidationError]. *)
Inductive errvalue : Type :=
| Message (s : string)
| Failures (l : list verror).

Definition errors := Dict.t errvalue.

Inductive exn : Type :=
| ValidationError (e : errors)
| AttributeError (name : string)
| KeyError (key : string)
| TypeError
| DocumentError
| InvalidRequestError (name : string)
| MultipleResultsFound.

(** A call returns, aborts with an HTTP status ([flask.abort]) or raises. *)
Inductive outcome (A : Type) : Type :=
| Return (a : A)
| Abort (status : Z)
| Raise (e : exn).

Arguments Return {A} a.
Arguments Abort {A} status.
Arguments Raise {A} e.

Definition bind {A B} (m : outcome A) (k : A -> outcome B) : outcome B :=
  match m with
  | Return a => k a
  | Abort s => Abort s
  | Raise e => Raise e
  end.

Notation "x <- m ;; k" := (bind m (fun x => k))
  (at level 61, m at next level, right associativity).

(** [for x in l: acc = f acc x], stopping at the first exception. *)
Fixpoint foldM {A B} (f : B -> A -> outcome B) (l : list A) (acc : B)
  : outcome B :=
  match l with
  | [] => Return acc
  | x :: l' => acc' <- f acc x ;; foldM f l' acc'
  end.

(** ** Strings *)

(** [s.split(sep)] for a one-character separator. *)
Fixpoint split (sep : ascii) (s : string) : list string :=
  match s with
  | EmptyString => [EmptyString]
  | String c s' =>
      if Ascii.eqb c sep then EmptyString :: split sep s'
      else match split sep s' with
           | [] => [String c EmptyString]
           | w :: ws => String c w :: ws
           end
  end.

(** [sep.join(l)] *)
Definition join (sep : string) (l : list string) : string :=
  String.concat sep l.

Fixpoint map_chars (f : ascii -> ascii) (s : string) : string :=
  match s with
  | EmptyString => EmptyString
  | String c s' => String (f c) (map_chars f s')
  end.

Definition replace_char (a b : ascii) (s : string) : string :=
  map_chars (fun c => if Ascii.eqb c a then b else c) s.

(** [s.startswith(c)] for a one-character prefix. *)
Definition startswith (c : ascii) (s : string) : bool :=
  match s with
  | String d _ => Ascii.eqb c d
  | EmptyString => false
  end.

(** [s[1:]] *)
Definition tail1 (s : string) : string :=
  match s with
  | String _ s' => s'
  | EmptyString => EmptyString
  end.

(** [s[:-1]] *)
Fixpoint drop_last (s : string) : string :=
  match s with
  | EmptyString => EmptyString
  | String c EmptyString => EmptyString
  | String c s' => String c (drop_last s')
  end.

Definition lower_char (c : ascii) : ascii :=
  let n := nat_of_ascii c in
  if (Nat.leb 65 n && Nat.leb n 90)%bool then ascii_of_nat (n + 32) else c.

Definition lower (s : string) : string := map_chars lower_char s.

(** [prefix p s]: [s.startswith(p)] *)
Fixpoint is_prefix (p s : string) : bool :=
  match p, s with
  | EmptyString, _ => true
  | String c p', String d s' => Ascii.eqb c d && is_prefix p' s'
  | String _ _, EmptyString => false
  end.

(** [t in s] *)
Fixpoint contains (t s : string) : bool :=
  is_prefix t s ||
  match s with
  | EmptyString => false
  | String _ s' => contains t s'
  end.

(** The escape character of [LIKE] in PostgreSQL, the backslash. *)
Definition escape_char : ascii := "092"%char.

(** SQL [LIKE]: ["%"] matches any run of characters, ["_"] exactly one,
    and the escape character makes the character after it stand for
    itself.  A pattern that ends in a lone escape character, which the
    database refuses, matches nothing; the patterns of the search stage
    end in ["%"] and are never of that kind. *)
Fixpoint like (p : string) : string -> bool :=
  match p with
  | EmptyString =>
      fun s => match s with EmptyString => true | String _ _ => false end
  | String c p' =>
      if Ascii.eqb c escape_char then
        match p' with
        | EmptyString => fun _ => false
        | String d p'' =>
            fun s => match s with
                     | EmptyString => false
                     | String e s' => Ascii.eqb d e && like p'' s'
                     end
        end
      else if Ascii.eqb c "%" then
        fix star (s : string) : bool :=
          like p' s ||
          match s with
          | EmptyString => false
          | String _ s' => star s'
          end
      else if Ascii.eqb c "_" then
        fun s => match s with
                 | EmptyString => false
                 | String _ s' => like p' s'
                 end
      else
        fun s => match s with
                 | EmptyString => false
                 | String d s' => Ascii.eqb c d && like p' s'
                 end
  end.

(** A text without the wildcards and the escape character of [LIKE]. *)
Fixpoint wildcard_free (s : string) : bool :=
  match s with
  | EmptyString => true
  | String c s' =>
      negb (Ascii.eqb c "%") && negb (Ascii.eqb c "_")
      && negb (Ascii.eqb c escape_char) && wildcard_free s'
  end.

(** SQL [ILIKE]: [LIKE] up to the case of letters. *)
Definition ilike (text pattern : string) : bool :=
  like (lower pattern) (lower text).

(** Decimal rendering of an integer, as [CAST(n AS TEXT)] and [str(n)]. *)
Definition decimal (z : Z) : string := NilZero.string_of_int (Z.to_int z).

(** ** Model classes *)

(** [column.type.python_type] *)
Inductive python_type : Type := PyInt | PyStr | PyBool | PyOther.

Record column : Type := Column {
  col_name : string;
  col_python_type : python_type
}.

(** ** Validation rules *)

Inductive ctype : Type := TDict | TList | TInteger | TString | TBoolean.

(** A rule set of a field: the rules that occur in [query_string_schema]
    and the type rules of a generated model schema. *)
Inductive rules : Type := Rules {
  r_type : option ctype;
  r_nullable : bool;
  r_required : bool;
  r_allowed : option (list string);
  r_coerce_int : bool;
  r_valueschema : option rules;
  r_schema : option (list (string * rules))
}.

(** [{}]: a field without rules. *)
Definition no_rules : rules := Rules None false false None false None None.

(** A row of a table: column name to value. *)
Definition row := Dict.t jval.

(** What the module reads off a declarative model class: [__tablename__],
    the mapped columns in declaration order ([inspect(cls).c]), the names
    of the primary-key columns, the schema [generate_schema(cls)] returns,
    and the optional [import_data] and [export_data] methods. *)
Record modelcls : Type := ModelCls {
  mc_tablename : string;
  mc_columns : list column;
  mc_primary_key : list string;
  mc_schema : Dict.t rules;
  mc_import_data : option (row -> Dict.t jval -> row);
  mc_export_data : option (row -> jval)
}.

Definition column_names (cls : modelcls) : list string :=
  map col_name (mc_columns cls).

(** [getattr(cls, name)] for a mapped attribute. *)
Definition getattr (cls : modelcls) (name : string) : outcome column :=
  match find (fun c => String.eqb (col_name c) name) (mc_columns cls) with
  | Some c => Return c
  | None => Raise (AttributeError name)
  end.

(** [hasattr(cls, name)] *)
Definition hasattr (cls : modelcls) (name : string) : bool :=
  mem_string name (column_names cls).

(** [getattr(row, name)]: an attribute never assigned reads [None]. *)
Definition row_get (name : string) (r : row) : jval :=
  match Dict.get name r with
  | Some v => v
  | None => JNull
  end.

Section Endpoints.

(** [flask.json.loads]; [None] stands for [JSONDecodeError]. *)
Variable json_loads : string -> option jval.

(** Python's [int] on a string; [None] stands for [ValueError]. *)
Variable py_int : string -> option Z.

(** Python's [str] on a decoded JSON value, as an f-string renders it. *)
Variable py_str : jval -> string.

(** The order of the database on column values. *)
Variable sql_compare : jval -> jval -> comparison.

(** ** The validator *)

(** Modelled from the spec: [saraki.utility.Validator] is not part of the
    module; it validates a document against a schema strictly (unknown
    fields are rejected) and returns the normalized document.  The rules
    are read the way Cerberus, the library the class extends, reads them:
    a field is coerced first, a [None] value is accepted only when
    nullable, a failed type check stops the other rules of the field,
    [allowed] constrains the members of a list, the keys of a dict or a
    scalar, [valueschema] the values of a dict and [schema] the fields of
    a dict.  With [update] set, required fields may be absent, also in
    subdocuments. *)

Definition has_type (t : ctype) (v : jval) : bool :=
  match t, v with
  | TDict, JObj _ => true
  | TList, JList _ => true
  | TInteger, JInt _ => true
  | TInteger, JBool _ => true   (* [isinstance(True, int)] *)
  | TString, JStr _ => true
  | TBoolean, JBool _ => true
  | _, _ => false
  end.

Definition type_ok (t : option ctype) (v : jval) : bool :=
  match t with
  | Some t => has_type t v
  | None => true
  end.

(** The coercer [int]. *)
Definition coerce_int (v : jval) : option jval :=
  match v with
  | JStr s => option_map JInt (py_int s)
  | JInt z => Some (JInt z)
  | JBool b => Some (JInt (if b then 1 else 0))
  | _ => None
  end.

Definition coerce (on : bool) (v : jval) : jval * list verror :=
  if on then
    match coerce_int v with
    | Some v' => (v', [])
    | None => (v, [CoercionFailed])
    end
  else (v, []).

Definition allowed_ok (al : list string) (v : jval) : bool :=
  match v with
  | JList l =>
      forallb (fun x => match x with
                        | JStr s => mem_string s al
                        | _ => false
                        end) l
  | JObj o => forallb (fun k => mem_string k al) (Dict.keys o)
  | JStr s => mem_string s al
  | _ => false
  end.

Definition check_allowed (al : option (list string)) (v : jval)
  : list verror :=
  match al with
  | Some al => if allowed_ok al v then [] else [UnallowedValue]
  | None => []
  end.

Definition checker := jval -> jval * list verror.

Definition field_errors := list (string * list verror).

(** Every entry of a dict goes through the checker of its key; the result
    is the normalized dict and the entries that failed. *)
Fixpoint check_entries (f : string -> checker) (o : Dict.t jval)
  : Dict.t jval * field_errors :=
  match o with
  | [] => ([], [])
  | (k, v) :: o' =>
      let '(v', es) := f k v in
      let '(o'', errs) := check_entries f o' in
      ((k, v') :: o'',
       match es with
       | [] => errs
       | _ :: _ => (k, es) :: errs
       end)
  end.

Definition unknown_field : checker := fun v => (v, [UnknownField]).

Definition field_checker (chks : Dict.t checker) (k : string) : checker :=
  match Dict.get k chks with
  | Some chk => chk
  | None => unknown_field
  end.

(** The required fields of a schema a document lacks. *)
Definition missing_required (sch : list (string * rules)) (o : Dict.t jval)
  : field_errors :=
  map (fun kr => (fst kr, [RequiredField]))
      (filter (fun kr => r_required (snd kr) && negb (Dict.mem (fst kr) o))
              sch).

Definition nested (es : field_errors) : list verror :=
  match es with
  | [] => []
  | _ :: _ => [Nested es]
  end.

Fixpoint check_rules (update : bool) (r : rules) (v : jval) {struct r}
  : jval * list verror :=
  let '(v1, e1) := coerce (r_coerce_int r) v in
  match v1 with
  | JNull => (v1, e1 ++ (if r_nullable r then [] else [NotNullable]))
  | _ =>
      if negb (type_ok (r_type r) v1) then (v1, e1 ++ [BadType])
      else
        let e2 := check_allowed (r_allowed r) v1 in
        let '(v2, e3) :=
          match v1, r_valueschema r with
          | JObj o, Some r' =>
              let '(o', es) :=
                check_entries (fun _ => check_rules update r') o in
              (JObj o', nested es)
          | _, _ => (v1, [])
          end in
        let '(v3, e4) :=
          match v2, r_schema r with
          | JObj o, Some sch =>
              let chks :=
                map (fun kr => (fst kr, check_rules update (snd kr))) sch in
              let '(o', es) := check_entries (field_checker chks) o in
              (JObj o',
               nested (es ++ if update then []
                             else missing_required sch o))
          | _, _ => (v2, [])
          end in
        (v3, e1 ++ e2 ++ e3 ++ e4)
  end.

(** The checkers of the fields of a schema. *)
Definition checkers (update : bool) (sch : Dict.t rules) : Dict.t checker :=
  map (fun kr => (fst kr, check_rules update (snd kr))) sch.

(** [v.validate(document, update=update)] on a mapping, together with
    [v.normalized(document)]: the normalized document when no field
    failed, [v.errors] otherwise. *)
Definition validate (sch : Dict.t rules) (update : bool)
    (doc : Dict.t jval) : Dict.t jval + field_errors :=
  let '(doc', es) := check_entries (field_checker (checkers update sch)) doc in
  match es ++ (if update then [] else missing_required sch doc) with
  | [] => inl doc'
  | e :: es' => inr (e :: es')
  end.

Definition validation_error (es : field_errors) : exn :=
  ValidationError (map (fun ke => (fst ke, Failures (snd ke))) es).

(** ** Requests and responses *)

(** The request a view function sees: [request.method],
    [request.is_json], the body [request.data], the query string
    [request.args] (a multi-dict) and [current_org.id]. *)
Record context : Type := Context {
  request_method : string;
  request_is_json : bool;
  request_data : string;
  request_args : list (string * string);
  current_org_id : Z
}.

Definition headers := Dict.t jval.

Record response : Type := Response {
  status_code : Z;
  resp_headers : headers;
  body : jval
}.

(** A payload is a JSON-serializable object or a model instance. *)
Inductive payload : Type :=
| PValue (j : jval)
| PModel (cls : modelcls) (r : row).

(** Second member of a returned tuple: a status or the headers. *)
Inductive second : Type :=
| SNone
| SInt (status : Z)
| SHeaders (h : headers).

(** What a view function returns: a single object, a [Response], or a
    tuple of a payload and up to two more members. *)
Inductive ret : Type :=
| RetObj (p : payload)
| RetResponse (resp : response)
| RetTuple (p : payload) (snd_ : second) (third : option headers).

(** The rows of the model's table, in storage order. *)
Definition table := list row.

(** ** class Collection *)

(** [qs.to_dict(flat=True)]: the first value of every key. *)
Fixpoint to_dict (qs : list (string * string)) : Dict.t string :=
  match qs with
  | [] => []
  | (k, v) :: qs' =>
      (k, v) :: filter (fun kv => negb (String.eqb (fst kv) k)) (to_dict qs')
  end.

Definition integer_rules : rules :=
  {| r_type := Some TInteger; r_nullable := false; r_required := false;
     r_allowed := None; r_coerce_int := false; r_valueschema := None;
     r_schema := None |}.

Definition select_rules (columns : list string) : rules :=
  {| r_type := Some TDict; r_nullable := false; r_required := false;
     r_allowed := Some columns; r_coerce_int := false;
     r_valueschema := Some integer_rules; r_schema := None |}.

Definition search_rules (columns : list string) : rules :=
  {| r_type := Some TDict; r_nullable := false; r_required := false;
     r_allowed := None; r_coerce_int := false; r_valueschema := None;
     r_schema :=
       Some [ ("t",
               {| r_type := None; r_nullable := false; r_required := true;
                  r_allowed := None; r_coerce_int := false;
                  r_valueschema := None; r_schema := None |});
              ("f",
               {| r_type := Some TList; r_nullable := false;
                  r_required := true; r_allowed := Some columns;
                  r_coerce_int := false; r_valueschema := None;
                  r_schema := None |}) ] |}.

Definition filter_rules (schema : Dict.t rules) : rules :=
  {| r_type := Some TDict; r_nullable := false; r_required := false;
     r_allowed := None; r_coerce_int := false; r_valueschema := None;
     r_schema := Some schema |}.

(** [{"type": "integer", "coerce": int}] *)
Definition coerced_integer_rules : rules :=
  {| r_type := Some TInteger; r_nullable := false; r_required := false;
     r_allowed := None; r_coerce_int := true; r_valueschema := None;
     r_schema := None |}.

Definition query_string_schema (cls : modelcls) : Dict.t rules :=
  let columns := column_names cls in
  [ ("select", select_rules columns);
    ("search", search_rules columns);
    ("filter", filter_rules (mc_schema cls));
    ("sort", no_rules);
    ("limit", coerced_integer_rules);
    ("page", coerced_integer_rules) ].

Definition json_keys : list string := ["select"; "search"; "filter"].

Definition invalid_json (key : string) : exn :=
  ValidationError [(key, Message "Invalid JSON string")].

(** One turn of the decoding loop. *)
Definition decode_item (decoded_qs : Dict.t jval) (kv : string * string)
  : outcome (Dict.t jval) :=
  let '(key, value) := kv in
  if mem_string key json_keys then
    match json_loads value with
    | Some j => Return (Dict.set key j decoded_qs)
    | None => Raise (invalid_json key)
    end
  else Return (Dict.set key (JStr value) decoded_qs).

Definition decode (qs : Dict.t string) : outcome (Dict.t jval) :=
  foldM decode_item qs [].

Definition _parse_query_string (cls : modelcls)
    (qs : list (string * string)) : outcome (Dict.t jval) :=
  let qs := to_dict qs in
  decoded_qs <- decode qs ;;
  match validate (query_string_schema cls) true decoded_qs with
  | inr es => Raise (validation_error es)
  | inl normalized => Return normalized
  end.

(** [query.filter_by] with keyword arguments: a conjunction of column equalities;
    a name that is no attribute of the entity is refused. *)
Definition matches (filters : Dict.t jval) (r : row) : bool :=
  forallb (fun kv => jval_eqb (row_get (fst kv) r) (snd kv)) filters.

Definition filter_by (cls : modelcls) (query : list row)
    (filters : Dict.t jval) : outcome (list row) :=
  match find (fun k => negb (hasattr cls k)) (Dict.keys filters) with
  | Some k => Raise (InvalidRequestError k)
  | None => Return (filter (matches filters) query)
  end.

Definition _filter_modifier (cls : modelcls) (query : list row)
    (filters : Dict.t jval) : outcome (list row) :=
  filter_by cls query filters.

(** The loop of [_parse_select_modifier]. *)
Fixpoint split_select (select : Dict.t jval)
  : list string * list string :=
  match select with
  | [] => ([], [])
  | (column_name, flag) :: select' =>
      let '(include, exclude) := split_select select' in
      if truthy flag then (column_name :: include, exclude)
      else (include, column_name :: exclude)
  end.

Definition _parse_select_modifier (select : Dict.t jval)
  : Dict.t (list string) :=
  let '(include, exclude) := split_select select in
  let params := [] in
  let params :=
    match include with
    | [] => params
    | _ :: _ => Dict.set "include" include params
    end in
  let params :=
    match exclude with
    | [] => params
    | _ :: _ => Dict.set "exclude" exclude params
    end in
  params.

(** Column expressions of the search stage. *)
Inductive expr : Type :=
| Attr (name : string)
| CastText (e : expr).

(** [CAST(v AS TEXT)]; [NULL] stays [NULL]. *)
Definition sql_text (v : jval) : jval :=
  match v with
  | JStr s => JStr s
  | JInt z => JStr (decimal z)
  | JBool b => JStr (if b then "true" else "false")
  | _ => JNull
  end.

Fixpoint eval (e : expr) (r : row) : jval :=
  match e with
  | Attr name => row_get name r
  | CastText e' => sql_text (eval e' r)
  end.

(** [e.ilike(pattern)] on a row; [NULL] matches nothing. *)
Definition ilike_pred (e : expr) (pattern : string) (r : row) : bool :=
  match eval e r with
  | JStr s => ilike s pattern
  | _ => false
  end.

(** [or_] of the clauses: without clauses it is no criterion at all. *)
Definition or_ (filters : list (row -> bool)) : option (row -> bool) :=
  match filters with
  | [] => None
  | _ :: _ => Some (fun r => existsb (fun p => p r) filters)
  end.

(** [query.filter(criterion)] *)
Definition query_filter (query : list row) (c : option (row -> bool))
  : list row :=
  match c with
  | Some p => filter p query
  | None => query
  end.

(** [d[key]] on a decoded value. *)
Definition getitem (d : jval) (key : string) : outcome jval :=
  match d with
  | JObj o =>
      match Dict.get key o with
      | Some v => Return v
      | None => Raise (KeyError key)
      end
  | _ => Raise TypeError
  end.

(** Iteration over a decoded value used as a list of names. *)
Definition names_of (v : jval) : outcome (list jval) :=
  match v with
  | JList l => Return l
  | _ => Raise TypeError
  end.

(** The operand of [ilike]: the column, cast to text unless its Python
    type is [str]. *)
Definition search_operand (c : column) : expr :=
  match col_python_type c with
  | PyStr => Attr (col_name c)
  | _ => CastText (Attr (col_name c))
  end.

(** One turn of the loop of [_search_modifier]. *)
Definition search_column (cls : modelcls) (term : jval)
    (filters : list (row -> bool)) (column_name : jval)
  : outcome (list (row -> bool)) :=
  match column_name with
  | JStr column_name =>
      column <- getattr cls column_name ;;
      Return (filters ++
              [ilike_pred (search_operand column)
                          ("%" ++ py_str term ++ "%")%string])
  | _ => Raise TypeError
  end.

Definition _search_modifier (cls : modelcls) (query : list row)
    (search : jval) : outcome (list row) :=
  term <- getitem search "t" ;;
  fields <- getitem search "f" ;;
  fields <- names_of fields ;;
  filters <- foldM (search_column cls term) fields [] ;;
  Return (query_filter query (or_ filters)).

(** A sort key: the column and whether it is descending. *)
Definition sort_key := (string * bool)%type.

(** One turn of the loop of [_sort_modifier]. *)
Definition sort_column (cls : modelcls) (sorting : list sort_key)
    (column_name : string) : outcome (list sort_key) :=
  if startswith "-" column_name then
    c <- getattr cls (tail1 column_name) ;;
    Return (sorting ++ [(col_name c, true)])
  else
    c <- getattr cls column_name ;;
    Return (sorting ++ [(col_name c, false)]).

(** Rows compared by the keys from left to right. *)
Fixpoint compare_rows (sorting : list sort_key) (a b : row) : comparison :=
  match sorting with
  | [] => Eq
  | (name, desc) :: sorting' =>
      let c := sql_compare (row_get name a) (row_get name b) in
      match (if desc then CompOpp c else c) with
      | Eq => compare_rows sorting' a b
      | c' => c'
      end
  end.

Fixpoint insert_row (sorting : list sort_key) (r : row) (l : list row)
  : list row :=
  match l with
  | [] => [r]
  | x :: l' =>
      match compare_rows sorting r x with
      | Gt => x :: insert_row sorting r l'
      | _ => r :: x :: l'
      end
  end.

(** [query.order_by] with the keys: a stable sort. *)
Definition order_by (query : list row) (sorting : list sort_key)
  : list row :=
  fold_right (insert_row sorting) [] query.

Definition _sort_modifier (cls : modelcls) (query : list row)
    (sort : jval) : outcome (list row) :=
  match sort with
  | JStr sort =>
      sorting <- foldM (sort_column cls) (split "," sort) [] ;;
      Return (order_by query sorting)
  | _ => Raise (AttributeError "split")
  end.

(** [query.paginate(page, per_page)] of Flask-SQLAlchemy: a page below 1,
    a negative page size, or an empty page other than the first abort
    with 404.  The rows are a list and the offset an integer without
    bound; the database takes an offset as a 64-bit integer and refuses a
    larger one, which [paginate] does not show: what is stated of a page
    past the end of the rows is stated for offsets up to [max_offset]. *)
Record pagination : Type := Pagination {
  items : list row;
  total : Z
}.

Definition page_slice (query : list row) (page per_page : Z) : list row :=
  firstn (Z.to_nat per_page) (skipn (Z.to_nat ((page - 1) * per_page)) query).

(** The largest offset the database accepts, [2^63 - 1]. *)
Definition max_offset : Z := 9223372036854775807.

Definition paginate (query : list row) (page per_page : Z)
  : outcome pagination :=
  if page <? 1 then Abort 404
  else if per_page <? 0 then Abort 404
  else
    let items := page_slice query page per_page in
    if (match items with [] => true | _ :: _ => false end)
         && negb (page =? 1)
    then Abort 404
    else
      let total :=
        if (page =? 1) && (Z.of_nat (length items) <? per_page)
        then Z.of_nat (length items)
        else Z.of_nat (length query) in
      Return {| items := items; total := total |}.

(** Modelled from the spec: [saraki.utility.export_from_sqla_object] is
    not part of the module.  A record is exported with the fields of the
    include list when that list is not empty, all its fields otherwise,
    less the fields of the exclude list. *)
Definition exported (include exclude : list string) (name : string) : bool :=
  (match include with [] => true | _ :: _ => mem_string name include end)
  && negb (mem_string name exclude).

Definition export_row (include exclude : list string) (r : row) : jval :=
  JObj (filter (fun kv => exported include exclude (fst kv)) r).

Definition param (name : string) (params : Dict.t (list string))
  : list string :=
  match Dict.get name params with
  | Some l => l
  | None => []
  end.

(** [export_data(items, **params)] on a list of rows. *)
Definition export_data (items : list row) (params : Dict.t (list string))
  : jval :=
  JList (map (export_row (param "include" params) (param "exclude" params))
             items).

(** [modifiers.get(key, default)] read as an integer. *)
Definition get_int (key : string) (default : Z) (modifiers : Dict.t jval)
  : outcome Z :=
  match Dict.get key modifiers with
  | None => Return default
  | Some (JInt z) => Return z
  | Some _ => Raise TypeError
  end.

(** The filters of a request: the tenant first, then the [filter]
    modifier merged over it with [dict.update]. *)
Definition tenant_filters (Model : modelcls) (ctx : context) : Dict.t jval :=
  if hasattr Model "org_id" then [("org_id", JInt (current_org_id ctx))]
  else [].

Definition merged_filters (filters : Dict.t jval) (modifiers : Dict.t jval)
  : outcome (Dict.t jval) :=
  match Dict.get "filter" modifiers with
  | Some (JObj o) => Return (Dict.update filters o)
  | Some _ => Raise TypeError
  | None => Return filters
  end.

(** The filter, search and sort stages. *)
Definition stages (Model : modelcls) (ctx : context)
    (modifiers : Dict.t jval) (query : list row) : outcome (list row) :=
  let filters := tenant_filters Model ctx in
  filters <- merged_filters filters modifiers ;;
  query <- match filters with
           | [] => Return query
           | _ :: _ => _filter_modifier Model query filters
           end ;;
  query <- match Dict.get "search" modifiers with
           | Some search => _search_modifier Model query search
           | None => Return query
           end ;;
  match Dict.get "sort" modifiers with
  | Some sort => _sort_modifier Model query sort
  | None => Return query
  end.

(** The select stage: the parameters of the export. *)
Definition select_params (modifiers : Dict.t jval)
  : outcome (Dict.t (list string)) :=
  match Dict.get "select" modifiers with
  | Some (JObj select) => Return (_parse_select_modifier select)
  | Some _ => Raise (AttributeError "items")
  | None => Return []
  end.

(** The body of the wrapper after the query string is parsed. *)
Definition run (default_limit max_limit : Z) (Model : modelcls)
    (ctx : context) (modifiers : Dict.t jval) (db : table) : outcome ret :=
  query <- stages Model ctx modifiers db ;;
  page <- get_int "page" 1 modifiers ;;
  limit <- get_int "limit" default_limit modifiers ;;
  let limit := Z.min limit max_limit in
  result <- paginate query page limit ;;
  export_data_params <- select_params modifiers ;;
  let payload := export_data (items result) export_data_params in
  Return (RetTuple (PValue payload)
            (SHeaders [("X-Total", JInt (total result));
                       ("X-Page", JInt page)])
            None).

(** [Collection.__call__(default_limit, max_limit)(f)]: the wrapper of a
    view function that returns the model class. *)
Definition collection (default_limit max_limit : Z) (A : Type)
    (f : A -> modelcls) (a : A) (ctx : context) (db : table)
  : outcome ret :=
  let Model := f a in
  modifiers <- _parse_query_string Model (request_args ctx) ;;
  run default_limit max_limit Model ctx modifiers db.

(** ** The decorator [json] *)

(** [request.get_json(silent=silent)]: [None] when the content type is
    not JSON; on a body that does not decode, [None] when silent and a
    400 otherwise. *)
Definition get_json (silent : bool) (ctx : context) : outcome jval :=
  if negb (request_is_json ctx) then Return JNull
  else
    match json_loads (request_data ctx) with
    | Some j => Return j
    | None => if silent then Return JNull else Abort 400
    end.

(** A view function: the request and the table to an outcome and the
    table afterwards. *)
Definition view := context -> table -> outcome ret * table.

(** [jsonify(payload)] *)
Definition jsonify (j : jval) : response :=
  {| status_code := 200; resp_headers := []; body := j |}.

(** The payload as JSON: a model instance is exported by its own
    [export_data] when the class has one. *)
Definition export_payload (p : payload) : jval :=
  match p with
  | PValue j => j
  | PModel cls r =>
      match mc_export_data cls with
      | Some export => export r
      | None => export_row [] [] r
      end
  end.

(** The part of the wrapper after the view function returned. *)
Definition to_response (ro : ret) : response :=
  match ro with
  | RetObj (PValue j) => jsonify j
  | RetResponse resp => resp
  | _ =>
      let '(payload, snd_, third) :=
        match ro with
        | RetTuple p s t => (p, s, t)
        | RetObj p => (p, SNone, None)
        | RetResponse _ => (PValue JNull, SNone, None)
        end in
      let '(status, headers) :=
        match snd_ with
        | SInt status => (Some status, third)
        | SHeaders h => (None, Some h)
        | SNone => (None, None)
        end in
      let response_object := jsonify (export_payload payload) in
      let response_object :=
        match status with
        | Some status =>
            if status =? 0 then response_object
            else {| status_code := status;
                    resp_headers := resp_headers response_object;
                    body := body response_object |}
        | None => response_object
        end in
      match headers with
      | Some (h :: hs) =>
          {| status_code := status_code response_object;
             resp_headers := resp_headers response_object ++ h :: hs;
             body := body response_object |}
      | _ => response_object
      end
  end.

Definition call (func : view) (ctx : context) (db : table)
  : outcome response * table :=
  let '(ro, db') := func ctx db in
  (ro <- ro ;; Return (to_response ro), db').

Definition json (func : view) (ctx : context) (db : table)
  : outcome response * table :=
  if String.eqb (request_method ctx) "POST" then
    if negb (request_is_json ctx) then (Abort 415, db)
    else
      match get_json true ctx with
      | Return JNull => (Abort 400, db)
      | Return _ => call func ctx db
      | Abort s => (Abort s, db)
      | Raise e => (Raise e, db)
      end
  else call func ctx db.

(** ** The item view *)

(** Modelled from the spec: [saraki.utility.import_into_sqla_object] is
    not part of the module; it assigns the data to the record field by
    field. *)
Definition import_data (model : row) (data : Dict.t jval) : row :=
  Dict.update model data.

Definition _import_data (cls : modelcls) (model : row) (data : Dict.t jval)
  : row :=
  match mc_import_data cls with
  | Some import => import model data
  | None => import_data model data
  end.

(** [{prop: kargs.get(prop) for prop in ident_prop}] *)
Definition ident_of (ident_prop : list string) (kargs : Dict.t jval)
  : Dict.t jval :=
  fold_left (fun ident prop => Dict.set prop (row_get prop kargs) ident)
            ident_prop [].

Definition item_ident (ident_prop : list string) (is_org : bool)
    (kargs : Dict.t jval) (ctx : context) : Dict.t jval :=
  let ident := ident_of ident_prop kargs in
  if is_org then Dict.set "org_id" (JInt (current_org_id ctx)) ident
  else ident.

(** [v.validate(payload, update=True, model=model)] followed by
    [v.normalized(payload)]; a payload that is no mapping is refused. *)
Definition validate_payload (schema : Dict.t rules) (update : bool)
    (payload : jval) : outcome (Dict.t jval) :=
  match payload with
  | JObj o =>
      match validate schema update o with
      | inl data => Return data
      | inr es => Raise (validation_error es)
      end
  | _ => Raise DocumentError
  end.

Definition item_view (modelcls : modelcls) (ident_prop : list string)
    (schema : Dict.t rules) (is_org : bool) (kargs : Dict.t jval) : view :=
  fun ctx db =>
    let ident := item_ident ident_prop is_org kargs ctx in
    match filter_by modelcls db ident with
    | Raise e => (Raise e, db)
    | Abort s => (Abort s, db)
    | Return [] => (Abort 404, db)
    | Return (_ :: _ :: _) => (Raise MultipleResultsFound, db)
    | Return [model] =>
        let method := request_method ctx in
        if String.eqb method "GET" then
          (Return (RetObj (PModel modelcls model)), db)
        else if String.eqb method "DELETE" then
          (Return (RetObj (PModel modelcls model)),
           filter (fun r => negb (matches ident r)) db)
        else if String.eqb method "PATCH" then
          match
            payload <- get_json false ctx ;;
            validate_payload schema true payload
          with
          | Return data =>
              let model' := _import_data modelcls model data in
              (Return (RetObj (PModel modelcls model')),
               map (fun r => if matches ident r then model' else r) db)
          | Abort s => (Abort s, db)
          | Raise e => (Raise e, db)
          end
        else (Return (RetObj (PValue JNull)), db)
    end.

(** ** Route rules *)

(** An argument that is a name or a list of names. *)
Inductive pyarg : Type :=
| ArgStr (s : string)
| ArgList (l : list string).

Definition arg_truthy (a : pyarg) : bool :=
  match a with
  | ArgStr s => negb (String.eqb s "")
  | ArgList l => match l with [] => false | _ :: _ => true end
  end.

(** [getattr(cls, name)]: the name has to be a string. *)
Definition getattr_arg (cls : modelcls) (name : pyarg) : outcome column :=
  match name with
  | ArgStr s => getattr cls s
  | ArgList _ => Raise TypeError
  end.

(** [type_mapping.get(python_type, "string")] *)
Definition type_mapping (t : python_type) : option string :=
  match t with
  | PyInt => Some "int"
  | PyStr => Some "string"
  | _ => None
  end.

Definition route_type (t : python_type) : string :=
  match type_mapping t with
  | Some s => s
  | None => "string"
  end.

(** [<type:name>], the variable of a column without the comma after it. *)
Definition route_variable (c : column) : string :=
  ("<" ++ route_type (col_python_type c) ++ ":" ++ col_name c ++ ">")%string.

Definition _generate_route_rules (base_url : string) (modelcls : modelcls)
    (ident_prop : list pyarg) (is_org : bool) : outcome (string * string) :=
  let list_rule :=
    (if is_org then "/orgs/<aud:orgname>/" ++ base_url
     else "/" ++ base_url)%string in
  let item_rule := (list_rule ++ "/")%string in
  columns <- foldM (fun cs name =>
                      c <- getattr_arg modelcls name ;; Return (cs ++ [c]))
                   ident_prop [] ;;
  let item_rule :=
    fold_left (fun rule c => (rule ++ route_variable c ++ ",")%string)
              columns item_rule in
  Return (list_rule, drop_last item_rule).

(** [a or b] on an optional string. *)
Definition or_else (a : option string) (b : string) : string :=
  match a with
  | Some s => if String.eqb s "" then b else s
  | None => b
  end.

Inductive view_func : Type := ListView | AddView | ItemView.

(** The keyword arguments every generated route passes to its view. *)
Record defaults : Type := Defaults {
  d_schema : Dict.t rules;
  d_modelcls : modelcls;
  d_ident_prop : list pyarg;
  d_primary_key : list string;
  d_is_org : bool
}.

(** One call of [app.add_url_rule]: the rule, the endpoint name, the view
    with the [require_auth] guard around it (resource and parent
    resource), the defaults and the methods. *)
Record url_rule : Type := UrlRule {
  rule : string;
  endpoint : string;
  rule_view : view_func;
  guard : option (string * option string);
  rule_defaults : defaults;
  rule_methods : option (list string)
}.

Definition methods_of (key : string) (default : list string)
    (methods : option (Dict.t (list string))) : list string :=
  match methods with
  | Some m =>
      match m with
      | [] => default
      | _ :: _ =>
          match Dict.get key m with
          | Some l => l
          | None => default
          end
      end
  | None => default
  end.

Definition add_resource (modelcls : modelcls) (base_url : option string)
    (ident : option pyarg) (methods : option (Dict.t (list string)))
    (secure : bool) (resource_name parent_resource : option string)
  : outcome (list url_rule) :=
  let is_org := hasattr modelcls "org_id" in
  let table_name := mc_tablename modelcls in
  let resource_name := or_else resource_name table_name in
  let base_url := or_else base_url (join "-" (split "_" table_name)) in
  let schema := mc_schema modelcls in
  let primary_key := mc_primary_key modelcls in
  let ident :=
    match ident with
    | Some i => if arg_truthy i then [i] else map ArgStr primary_key
    | None => map ArgStr primary_key
    end in
  rules <- _generate_route_rules base_url modelcls ident is_org ;;
  let '(list_rule, item_rule) := rules in
  let list_methods := methods_of "list" ["GET"; "POST"] methods in
  let item_methods := methods_of "item" ["GET"; "PATCH"; "DELETE"] methods in
  let defaults :=
    {| d_schema := schema; d_modelcls := modelcls; d_ident_prop := ident;
       d_primary_key := primary_key; d_is_org := is_org |} in
  let list_get :=
    if mem_string "GET" list_methods then
      [ {| rule := list_rule;
           endpoint := ("list_" ++ table_name)%string;
           rule_view := ListView;
           guard :=
             if secure then
               Some (resource_name,
                     match parent_resource with
                     | Some p =>
                         if String.eqb p "" then
                           if is_org then Some "org" else None
                         else Some p
                     | None => if is_org then Some "org" else None
                     end)
             else None;
           rule_defaults := defaults;
           rule_methods := None |} ]
    else [] in
  let list_post :=
    if mem_string "POST" list_methods then
      [ {| rule := list_rule;
           endpoint := ("add_" ++ table_name)%string;
           rule_view := AddView;
           guard := if secure then Some (resource_name, None) else None;
           rule_defaults := defaults;
           rule_methods := Some ["POST"] |} ]
    else [] in
  let item verb method :=
    if mem_string method item_methods then
      [ {| rule := item_rule;
           endpoint := (verb ++ "_" ++ table_name)%string;
           rule_view := ItemView;
           guard := if secure then Some (resource_name, None) else None;
           rule_defaults := defaults;
           rule_methods := Some [method] |} ]
    else [] in
  Return (list_get ++ list_post ++ item "get" "GET"
            ++ item "update" "PATCH" ++ item "delete" "DELETE").

(** ** The list and add views *)

Definition list_view_func (cls : modelcls) (kargs : Dict.t jval)
  : modelcls :=
  cls.

(** A view that only reads the table. *)
Definition reading (f : context -> table -> outcome ret) : view :=
  fun ctx db => (f ctx db, db).

(** [json(collection()(list_view_func))], the view of the list rule. *)
Definition list_endpoint (modelcls : modelcls) (kargs : Dict.t jval)
    (ctx : context) (db : table) : outcome response * table :=
  json (reading (collection 30 100 (list_view_func modelcls) kargs)) ctx db.

(** [session.add(model)] followed by [session.commit()]: the row as the
    database stores it, with the values it generates, or the error it
    raises. *)
Variable db_insert : table -> row -> outcome row.

(** [payload[key] = value]: only a dict takes a string key. *)
Definition setitem (payload : jval) (key : string) (value : jval)
  : outcome jval :=
  match payload with
  | JObj o => Return (JObj (Dict.set key value o))
  | _ => Raise TypeError
  end.

Definition add_view_func (modelcls : modelcls) (schema : Dict.t rules)
    (is_org : bool) (kargs : Dict.t jval) : view :=
  fun ctx db =>
    match
      payload <- get_json false ctx ;;
      payload <- (if is_org
                  then setitem payload "org_id" (JInt (current_org_id ctx))
                  else Return payload) ;;
      data <- validate_payload schema false payload ;;
      let model := _import_data modelcls [] data in
      db_insert db model
    with
    | Return model =>
        (Return (RetTuple (PModel modelcls model) (SInt 201) None),
         db ++ [model])
    | Abort s => (Abort s, db)
    | Raise e => (Raise e, db)
    end.

End Endpoints.

(** ** Sample data

    A decoder, an [int] and a [str] on the texts and values the examples
    use, two model classes and their tables. *)

Module Sample.

Definition dq : string := String "034"%char EmptyString.

(** [{"org_id": 2}] *)
Definition text_org2 : string := ("{" ++ dq ++ "org_id" ++ dq ++ ": 2}")%string.

(** [{"id": 5}] *)
Definition text_id5 : string := ("{" ++ dq ++ "id" ++ dq ++ ": 5}")%string.

(** [{"name": 1}] *)
Definition text_name1 : string := ("{" ++ dq ++ "name" ++ dq ++ ": 1}")%string.

(** [{"name": 0}] *)
Definition text_name0 : string := ("{" ++ dq ++ "name" ++ dq ++ ": 0}")%string.

(** [{"t": 1, "f": ["id"]}] *)
Definition text_search1 : string :=
  ("{" ++ dq ++ "t" ++ dq ++ ": 1, " ++ dq ++ "f" ++ dq ++ ": ["
       ++ dq ++ "id" ++ dq ++ "]}")%string.

(** The decoder on the texts above; ["{"] and every other text used in an
    example is no JSON document. *)
Definition loads (s : string) : option jval :=
  Dict.get s
    [ (text_org2, JObj [("org_id", JInt 2)]);
      (text_id5, JObj [("id", JInt 5)]);
      (text_name1, JObj [("name", JInt 1)]);
      (text_name0, JObj [("name", JInt 0)]);
      (text_search1, JObj [("t", JInt 1); ("f", JList [JStr "id"])]) ].

Definition digit (c : ascii) : option Z :=
  let n := nat_of_ascii c in
  if (Nat.leb 48 n && Nat.leb n 57)%bool then Some (Z.of_nat (n - 48))
  else None.

Fixpoint digits (acc : Z) (s : string) : option Z :=
  match s with
  | EmptyString => Some acc
  | String c s' =>
      match digit c with
      | Some d => digits (10 * acc + d) s'
      | None => None
      end
  end.

(** [int] on an optional sign followed by decimal digits. *)
Definition int (s : string) : option Z :=
  match s with
  | EmptyString => None
  | String "-" (String c s') => option_map Z.opp (digits 0 (String c s'))
  | String "+" (String c s') => digits 0 (String c s')
  | String _ _ => digits 0 s
  end.

(** [str] on a scalar. *)
Definition str (v : jval) : string :=
  match v with
  | JStr s => s
  | JInt z => decimal z
  | JBool b => if b then "True" else "False"
  | JNull => "None"
  | _ => EmptyString
  end.

(** Integers by value, strings by code point, [NULL] last. *)
Definition compare (a b : jval) : comparison :=
  match a, b with
  | JInt x, JInt y => Z.compare x y
  | JStr x, JStr y => String.compare x y
  | JNull, JNull => Eq
  | JNull, _ => Gt
  | _, JNull => Lt
  | _, _ => Eq
  end.

Definition type_rule (t : ctype) : rules :=
  {| r_type := Some t; r_nullable := false; r_required := false;
     r_allowed := None; r_coerce_int := false; r_valueschema := None;
     r_schema := None |}.

(** A tenant-scoped model. *)
Definition Product : modelcls :=
  {| mc_tablename := "product";
     mc_columns := [Column "id" PyInt; Column "org_id" PyInt;
                    Column "name" PyStr];
     mc_primary_key := ["id"];
     mc_schema := [("id", type_rule TInteger); ("org_id", type_rule TInteger);
                   ("name", type_rule TString)];
     mc_import_data := None;
     mc_export_data := None |}.

Definition product (id org_id : Z) (name : string) : row :=
  [("id", JInt id); ("org_id", JInt org_id); ("name", JStr name)].

Definition products : table :=
  [product 1 1 "Anvil"; product 12 1 "Bolt"; product 3 1 "Chisel";
   product 21 1 "Drill"; product 5 2 "Explosive"].

(** A model with a composite primary key. *)
Definition OrderLine : modelcls :=
  {| mc_tablename := "order_line";
     mc_columns := [Column "order_id" PyInt; Column "product_id" PyInt;
                    Column "unit" PyStr];
     mc_primary_key := ["order_id"; "product_id"];
     mc_schema := [("order_id", type_rule TInteger);
                   ("product_id", type_rule TInteger);
                   ("unit", type_rule TString)];
     mc_import_data := None;
     mc_export_data := None |}.

Definition order_line (order_id product_id : Z) (unit : string) : row :=
  [("order_id", JInt order_id); ("product_id", JInt product_id);
   ("unit", JStr unit)].

Definition order_lines : table :=
  [order_line 5 9 "box"; order_line 9 5 "bag"; order_line 5 5 "crate";
   order_line 9 9 "drum"].

(** A [GET] of tenant 1 with the given query string. *)
Definition get (args : list (string * string)) : context :=
  {| request_method := "GET"; request_is_json := false;
     request_data := EmptyString; request_args := args;
     current_org_id := 1 |}.

Definition list_products : context -> table -> outcome ret :=
  collection loads int str compare 30 100 (fun _ : unit => Product) tt.

(** A [PATCH] of tenant 1 whose body is a form, not JSON. *)
Definition patch_form : context :=
  {| request_method := "PATCH"; request_is_json := false;
     request_data := "name=Bolt"; request_args := [];
     current_org_id := 1 |}.

(** The item views [add_resource] registers for the two models. *)
Definition product_item (kargs : Dict.t jval) : view :=
  item_view loads int Product ["id"] (mc_schema Product) true kargs.

Definition order_line_item (kargs : Dict.t jval) : view :=
  item_view loads int OrderLine ["order_id"; "product_id"]
            (mc_schema OrderLine) false kargs.

(** An insert that numbers the row after the largest [id] of the table. *)
Definition next_id (db : table) : Z :=
  1 + fold_right (fun r m => match row_get "id" r with
                             | JInt z => Z.max z m
                             | _ => m
                             end) 0 db.

Definition insert (db : table) (r : row) : outcome row :=
  Return (Dict.set "id" (JInt (next_id db)) r).

(** [{"name": "Forge", "org_id": 2}] *)
Definition text_forge : string :=
  ("{" ++ dq ++ "name" ++ dq ++ ": " ++ dq ++ "Forge" ++ dq ++ ", "
       ++ dq ++ "org_id" ++ dq ++ ": 2}")%string.

(** [{"name": "Beam"}] *)
Definition text_beam : string :=
  ("{" ++ dq ++ "name" ++ dq ++ ": " ++ dq ++ "Beam" ++ dq ++ "}")%string.

(** [[1, 2]] *)
Definition text_array : string := "[1, 2]".

(** The decoder on the request bodies of the examples. *)
Definition loads_body (s : string) : option jval :=
  Dict.get s
    [ (text_forge, JObj [("name", JStr "Forge"); ("org_id", JInt 2)]);
      (text_beam, JObj [("name", JStr "Beam")]);
      (text_array, JList [JInt 1; JInt 2]) ].

(** A request of tenant 1 with a JSON body. *)
Definition with_body (method body : string) : context :=
  {| request_method := method; request_is_json := true;
     request_data := body; request_args := []; current_org_id := 1 |}.

Definition add_product : view :=
  add_view_func loads_body int insert Product (mc_schema Product) true [].


End Sample.

(** * Properties *)

(** ** Dictionaries and the outcome monad *)

Lemma get_set_same (V : Type) (k : string) (v : V) (d : Dict.t V) :
  Dict.get k (Dict.set k v d) = Some v.
Proof.
  induction d as [|[k' v'] d IH]; simpl.
  - now rewrite String.eqb_refl.
  - destruct (String.eqb k k') eqn:E; simpl; rewrite E; auto.
Qed.

Lemma get_set_other (V : Type) (k k' : string) (v : V) (d : Dict.t V) :
  k <> k' -> Dict.get k (Dict.set k' v d) = Dict.get k d.
Proof.
  intros N. induction d as [|[k2 v2] d IH]; simpl.
  - destruct (String.eqb_spec k k'); congruence.
  - destruct (String.eqb_spec k' k2); simpl.
    + subst. destruct (String.eqb_spec k k2); congruence.
    + destruct (String.eqb_spec k k2); auto.
Qed.

Lemma get_update (V : Type) (k : string) (d e : Dict.t V) :
  Dict.get k (Dict.update d e) =
  match Dict.get k (rev e) with
  | Some v => Some v
  | None => Dict.get k d
  end.
Proof.
  unfold Dict.update. revert d.
  induction e as [|[k' v'] e IH] using rev_ind; intros d; simpl; auto.
  rewrite fold_left_app, rev_app_distr. simpl.
  destruct (String.eqb_spec k k').
  - subst. apply get_set_same.
  - rewrite get_set_other by assumption. apply IH.
Qed.

Lemma get_rev_none (V : Type) (k : string) (d : Dict.t V) :
  Dict.get k d = None -> Dict.get k (rev d) = None.
Proof.
  induction d as [|[k' v'] d IH]; simpl; auto.
  destruct (String.eqb_spec k k'); [discriminate|].
  intros H. specialize (IH H).
  revert IH. generalize (rev d). intros l.
  induction l as [|[k2 v2] l IHl]; simpl.
  - destruct (String.eqb_spec k k'); congruence.
  - destruct (String.eqb k k2); auto.
Qed.

Lemma get_rev_some (V : Type) (k : string) (d : Dict.t V) (v : V) :
  Dict.get k d = Some v -> exists w, Dict.get k (rev d) = Some w.
Proof.
  intros H. destruct (Dict.get k (rev d)) eqn:E; eauto.
  apply get_rev_none in E. rewrite rev_involutive in E. congruence.
Qed.

Lemma foldM_app (A B : Type) (f : B -> A -> outcome B) (l1 l2 : list A)
    (acc : B) :
  foldM f (l1 ++ l2) acc = (acc' <- foldM f l1 acc ;; foldM f l2 acc').
Proof.
  revert acc. induction l1 as [|x l1 IH]; intros acc; simpl; auto.
  destruct (f acc x); simpl; auto.
Qed.

Lemma mem_string_In (s : string) (l : list string) :
  mem_string s l = true <-> In s l.
Proof.
  unfold mem_string. rewrite existsb_exists. split.
  - intros [x [H E]]. apply String.eqb_eq in E. now subst.
  - intros H. exists s. split; auto. apply String.eqb_refl.
Qed.

(** ** Attribute lookup *)

Lemma getattr_absent (cls : modelcls) (name : string) :
  hasattr cls name = false -> getattr cls name = Raise (AttributeError name).
Proof.
  unfold hasattr, getattr, column_names, mem_string.
  induction (mc_columns cls) as [|c cs IH]; simpl; auto.
  rewrite String.eqb_sym.
  destruct (String.eqb (col_name c) name); simpl; [discriminate|auto].
Qed.

Lemma getattr_present (cls : modelcls) (name : string) :
  hasattr cls name = true ->
  exists c, getattr cls name = Return c /\ col_name c = name
            /\ In c (mc_columns cls).
Proof.
  unfold hasattr, getattr, column_names, mem_string.
  induction (mc_columns cls) as [|c cs IH]; simpl; [discriminate|].
  rewrite String.eqb_sym.
  destruct (String.eqb_spec (col_name c) name); simpl.
  - intros _. exists c. auto.
  - intros H. destruct (IH H) as [c' [H1 [H2 H3]]]. exists c'. auto.
Qed.

(** ** Patterns *)

Lemma like_percent (p s : string) :
  like (String "%" p) s =
  like p s || match s with
              | EmptyString => false
              | String _ s' => like (String "%" p) s'
              end.
Proof. destruct s; reflexivity. Qed.



Lemma like_escape (d : ascii) (p s : string) :
  like (String escape_char (String d p)) s =
  match s with
  | EmptyString => false
  | String e s' => Ascii.eqb d e && like p s'
  end.
Proof. reflexivity. Qed.

(** The escape character takes the wildcard after it literally: the term
    of one escape character gives a pattern of ["%"], the escape character
    and ["%"], which matches exactly the texts that end in a percent
    sign. *)
Lemma like_escaped_percent (s : string) :
  like (String "%" (String escape_char "%")) s = true <->
  exists s', s = (s' ++ "%")%string.
Proof.
  split.
  - induction s as [|c s IH]; [discriminate|].
    rewrite like_percent. intros H. apply orb_prop in H.
    destruct H as [H|H].
    + rewrite like_escape in H.
      apply andb_prop in H. destruct H as [E H].
      apply Ascii.eqb_eq in E. destruct s; [|discriminate].
      exists EmptyString. now subst.
    + destruct (IH H) as [s' E]. exists (String c s'). now subst.
  - intros [s' E]. subst. induction s' as [|c s' IH].
    + reflexivity.
    + cbn [append]. rewrite like_percent, IH. apply orb_true_r.
Qed.






(** ** The query-string parser *)

Section Parser.

Variable json_loads : string -> option jval.
Variable py_int : string -> option Z.

Local Abbreviation parse := (_parse_query_string json_loads py_int).
Local Abbreviation decode_step := (decode_item json_loads).

(** The decoding loop gets through a run of entries that all decode. *)
Lemma decode_run (qs : Dict.t string) (acc : Dict.t jval) :
  (forall k v, In (k, v) qs -> mem_string k json_keys = true ->
               json_loads v <> None) ->
  exists acc', foldM decode_step qs acc = Return acc'.
Proof.
  revert acc. induction qs as [|[k v] qs IH]; intros acc H.
  - simpl. eauto.
  - cbn [foldM decode_item].
    assert (T : forall k' v', In (k', v') qs ->
                mem_string k' json_keys = true -> json_loads v' <> None).
    { intros k' v' I. apply H. now right. }
    destruct (mem_string k json_keys) eqn:E.
    + destruct (json_loads v) eqn:L.
      * cbn [bind]. now apply IH.
      * exfalso. apply (H k v); auto. now left.
    + cbn [bind]. now apply IH.
Qed.

(** The parser returns or raises a [ValidationError]. *)
Lemma decode_outcome (qs : Dict.t string) (acc : Dict.t jval) :
  (exists d, foldM decode_step qs acc = Return d) \/
  (exists e, foldM decode_step qs acc = Raise (ValidationError e)).
Proof.
  revert acc. induction qs as [|[k v] qs IH]; intros acc.
  - left. simpl. eauto.
  - cbn [foldM decode_item].
    destruct (mem_string k json_keys).
    + destruct (json_loads v); cbn [bind]; [apply IH|].
      right. unfold invalid_json. eauto.
    + cbn [bind]. apply IH.
Qed.

Lemma parse_outcome (cls : modelcls) (qs : list (string * string)) :
  (exists m, parse cls qs = Return m) \/
  (exists e, parse cls qs = Raise (ValidationError e)).
Proof.
  unfold _parse_query_string, decode.
  destruct (decode_outcome (to_dict qs) []) as [[d H]|[e H]]; rewrite H; simpl.
  - destruct (validate py_int (query_string_schema cls) true d).
    + left. eauto.
    + right. unfold validation_error. eauto.
  - right. eauto.
Qed.

(** *** Entries of a checked document *)

Lemma check_entries_get (f : string -> checker) (o : Dict.t jval)
    (k : string) :
  Dict.get k (fst (check_entries f o)) =
  option_map (fun v => fst (f k v)) (Dict.get k o).
Proof.
  induction o as [|[k' v'] o IH]; simpl; auto.
  destruct (f k' v') as [w es] eqn:F.
  destruct (check_entries f o) as [o2 errs]. simpl in *.
  destruct (String.eqb_spec k k'); subst; simpl; auto.
  now rewrite F.
Qed.

Lemma check_entries_clean (f : string -> checker) (o : Dict.t jval) :
  snd (check_entries f o) = [] <->
  (forall k v, In (k, v) o -> snd (f k v) = []).
Proof.
  induction o as [|[k v] o IH]; simpl.
  - split; auto. intros _ k v I. destruct I.
  - destruct (f k v) as [w es] eqn:F.
    destruct (check_entries f o) as [o2 errs]. simpl in *.
    split.
    + intros H k' v' [E|I].
      * inversion E; subst. rewrite F. simpl.
        destruct es; [reflexivity|discriminate].
      * destruct es; [|discriminate]. now apply IH.
    + intros H. assert (E : es = []).
      { specialize (H k v (or_introl eq_refl)). now rewrite F in H. }
      subst es. apply IH. intros k' v' I. apply H. now right.
Qed.

Lemma check_entries_same (f : string -> checker) (o : Dict.t jval) :
  (forall k v, In (k, v) o -> f k v = (v, [])) ->
  check_entries f o = (o, []).
Proof.
  induction o as [|[k v] o IH]; simpl; intros H; auto.
  rewrite (H k v (or_introl eq_refl)).
  rewrite IH; auto.
Qed.

Lemma get_In (V : Type) (k : string) (v : V) (d : Dict.t V) :
  Dict.get k d = Some v -> In (k, v) d.
Proof.
  induction d as [|[k' v'] d IH]; simpl; [discriminate|].
  destruct (String.eqb_spec k k').
  - intros E. inversion E. subst. now left.
  - intros H. right. auto.
Qed.

(** A validated document: every field's checker found no failure, and the
    normalized document holds the normalized values. *)
Lemma validate_update_inl (sch : Dict.t rules) (doc m : Dict.t jval) :
  validate py_int sch true doc = inl m ->
  m = fst (check_entries (field_checker (checkers py_int true sch)) doc) /\
  (forall k v, In (k, v) doc ->
     snd (field_checker (checkers py_int true sch) k v) = []).
Proof.
  unfold validate.
  destruct (check_entries _ doc) as [doc' es] eqn:C.
  rewrite app_nil_r. destruct es; [|discriminate].
  intros E. inversion E. subst. split; auto.
  apply check_entries_clean. now rewrite C.
Qed.

(** *** Invalid JSON *)

(** Claim C3, as the code has it: the decoding loop raises at the first key
    of [select], [search], [filter] (in the order of the query string)
    whose value is no JSON document, and the error names that key alone;
    the keys after it are not looked at. *)
Theorem parse_raises_at_first_invalid_json (cls : modelcls)
    (qs : list (string * string)) (before : Dict.t string) (key value : string)
    (after : Dict.t string) :
  to_dict qs = before ++ (key, value) :: after ->
  (forall k v, In (k, v) before -> mem_string k json_keys = true ->
               json_loads v <> None) ->
  mem_string key json_keys = true ->
  json_loads value = None ->
  parse cls qs = Raise (ValidationError [(key, Message "Invalid JSON string")]).
Proof.
  intros Q B K L. unfold _parse_query_string, decode.
  rewrite Q, foldM_app.
  destruct (decode_run before [] B) as [acc E]. rewrite E.
  cbn [bind foldM decode_item]. rewrite K, L. reflexivity.
Qed.

(** *** The sort modifier *)

Lemma parse_sort_only (cls : modelcls) (sort : string) :
  parse cls [("sort", sort)] = Return [("sort", JStr sort)].
Proof. reflexivity. Qed.

(** *** The select modifier *)

Lemma integer_rules_check (x : jval) :
  fst (check_rules py_int true integer_rules x) = x /\
  (snd (check_rules py_int true integer_rules x) = [] <->
   has_type TInteger x = true).
Proof.
  destruct x; simpl; split; try reflexivity; split;
    try discriminate; auto.
Qed.

Lemma select_rules_check (columns : list string) (v : jval) :
  (snd (check_rules py_int true (select_rules columns) v) = [] <->
   exists o, v = JObj o /\
     forall k x, In (k, x) o ->
       In k columns /\ has_type TInteger x = true) /\
  (snd (check_rules py_int true (select_rules columns) v) = [] ->
   fst (check_rules py_int true (select_rules columns) v) = v).
Proof.
  destruct v;
    try (split; [split; [discriminate|intros [o [E _]]; discriminate]
                |discriminate]).
  cbn [check_rules select_rules r_coerce_int r_type r_nullable r_allowed
       r_valueschema r_schema coerce type_ok has_type negb check_allowed
       allowed_ok app].
  destruct (check_entries (fun _ => check_rules py_int true integer_rules) o)
    as [o' es] eqn:C.
  assert (K : forallb (fun k => mem_string k columns) (Dict.keys o) = true <->
              forall k x, In (k, x) o -> In k columns).
  { rewrite forallb_forall. unfold Dict.keys. split.
    - intros H k x I. apply mem_string_In, H, in_map_iff.
      exists (k, x). auto.
    - intros H k I. apply in_map_iff in I. destruct I as [[k' x] [E I]].
      simpl in E. subst. apply mem_string_In. eauto. }
  assert (V : es = [] <->
              forall k x, In (k, x) o -> has_type TInteger x = true).
  { replace es with
      (snd (check_entries (fun _ => check_rules py_int true integer_rules) o))
      by now rewrite C.
    rewrite check_entries_clean. split; intros H k x I.
    - apply integer_rules_check. eauto.
    - apply integer_rules_check. eauto. }
  split.
  - split.
    + intros H. exists o. split; auto.
      destruct (forallb _ (Dict.keys o)) eqn:A; [|discriminate].
      destruct es; [|discriminate].
      intros k x I. split.
      * apply (proj1 K eq_refl k x I).
      * apply (proj1 V eq_refl k x I).
    + intros [o2 [E H]]. inversion E. subst o2.
      assert (A : forallb (fun k => mem_string k columns) (Dict.keys o) = true).
      { apply K. intros k x I. apply H in I. tauto. }
      assert (Z : es = []).
      { apply V. intros k x I. apply H in I. tauto. }
      rewrite A, Z. reflexivity.
  - intros H.
    destruct (forallb _ (Dict.keys o)) eqn:A; [|discriminate].
    destruct es; [|discriminate].
    assert (S : check_entries (fun _ => check_rules py_int true integer_rules) o
                = (o, [])).
    { apply check_entries_same. intros k x I.
      destruct (integer_rules_check x) as [F _].
      assert (G : snd (check_rules py_int true integer_rules x) = []).
      { apply (proj1 (check_entries_clean
                 (fun _ => check_rules py_int true integer_rules) o)) with k.
        - now rewrite C.
        - assumption. }
      destruct (check_rules py_int true integer_rules x) as [a b].
      simpl in F, G. now subst. }
    rewrite S in C. inversion C. reflexivity.
Qed.

Lemma select_checker (cls : modelcls) :
  field_checker (checkers py_int true (query_string_schema cls)) "select" =
  check_rules py_int true (select_rules (column_names cls)).
Proof. reflexivity. Qed.

(** A parsed select modifier is an object of column names and integers. *)
Lemma parse_select_valid (cls : modelcls) (qs : list (string * string))
    (modifiers : Dict.t jval) (sel : jval) :
  parse cls qs = Return modifiers ->
  Dict.get "select" modifiers = Some sel ->
  exists o, sel = JObj o /\
    forall k x, In (k, x) o ->
      In k (column_names cls) /\ has_type TInteger x = true.
Proof.
  intros P G. unfold _parse_query_string in P.
  destruct (decode json_loads (to_dict qs)) as [d| |] eqn:D;
    try discriminate.
  cbn [bind] in P.
  destruct (validate py_int (query_string_schema cls) true d) as [m'|es]
    eqn:V; [|discriminate].
  assert (E : m' = modifiers) by congruence. subst m'. clear P.
  apply validate_update_inl in V. destruct V as [M C]. subst modifiers.
  rewrite check_entries_get in G.
  destruct (Dict.get "select" d) as [v|] eqn:S; [|discriminate].
  cbn [option_map] in G. rewrite select_checker in G.
  apply get_In in S. apply C in S. rewrite select_checker in S.
  destruct (select_rules_check (column_names cls) v) as [A B].
  rewrite (B S) in G. assert (E : v = sel) by congruence. subst sel.
  now apply A.
Qed.

(** Claim C6, as the code has it: a select modifier is accepted exactly
    when it is an object whose keys are column names of the model and whose
    values are integers (the type rule is [integer], which JSON booleans
    pass as well); any other select modifier raises a [ValidationError]
    on the field [select]. *)
Theorem select_accepted_iff_integer_flags (cls : modelcls) :
  (forall qs modifiers sel,
     parse cls qs = Return modifiers ->
     Dict.get "select" modifiers = Some sel ->
     exists o, sel = JObj o /\
       forall k x, In (k, x) o ->
         In k (column_names cls) /\ has_type TInteger x = true) /\
  (forall text sel,
     json_loads text = Some sel ->
     ((exists o, sel = JObj o /\
         forall k x, In (k, x) o ->
           In k (column_names cls) /\ has_type TInteger x = true) /\
      parse cls [("select", text)] = Return [("select", sel)])
     \/
     (~ (exists o, sel = JObj o /\
           forall k x, In (k, x) o ->
             In k (column_names cls) /\ has_type TInteger x = true) /\
      exists failures,
        parse cls [("select", text)] =
        Raise (ValidationError [("select", Failures failures)]))).
Proof.
  split.
  - intros qs m sel. apply parse_select_valid.
  - intros text sel L.
    unfold _parse_query_string, decode.
    cbn [to_dict filter foldM decode_item].
    replace (mem_string "select" json_keys) with true by reflexivity.
    rewrite L. cbn [bind Dict.set].
    unfold validate. cbn [check_entries].
    rewrite select_checker.
    destruct (select_rules_check (column_names cls) sel) as [A B].
    destruct (check_rules py_int true (select_rules (column_names cls)) sel)
      as [v' es] eqn:R.
    simpl in A, B. destruct es as [|e es].
    + left. split; [now apply A|]. rewrite (B eq_refl). reflexivity.
    + right. split.
      * intros H. apply A in H. discriminate.
      * exists (e :: es). reflexivity.
Qed.

(** *** Limit and page *)

Lemma coerced_integer_check (v : jval) :
  snd (check_rules py_int true coerced_integer_rules v) = [] ->
  exists z, fst (check_rules py_int true coerced_integer_rules v) = JInt z.
Proof.
  destruct v as [|b|z|s|l|o]; simpl; try discriminate; eauto.
  destruct (py_int s); simpl; [eauto|discriminate].
Qed.

Lemma parse_integer_modifier (cls : modelcls) (qs : list (string * string))
    (modifiers : Dict.t jval) (key : string) (v : jval) :
  parse cls qs = Return modifiers ->
  key = "limit" \/ key = "page" ->
  Dict.get key modifiers = Some v ->
  exists z, v = JInt z.
Proof.
  intros P K G. unfold _parse_query_string in P.
  destruct (decode json_loads (to_dict qs)) as [d| |] eqn:D;
    try discriminate.
  cbn [bind] in P.
  destruct (validate py_int (query_string_schema cls) true d) as [m'|es]
    eqn:V; [|discriminate].
  assert (E : m' = modifiers) by congruence. subst m'. clear P.
  apply validate_update_inl in V. destruct V as [M C]. subst modifiers.
  rewrite check_entries_get in G.
  destruct (Dict.get key d) as [w|] eqn:S; [|discriminate].
  cbn [option_map] in G. apply get_In in S. apply C in S.
  assert (F : field_checker (checkers py_int true (query_string_schema cls))
                key = check_rules py_int true coerced_integer_rules).
  { destruct K; subst key; reflexivity. }
  rewrite F in G, S. apply coerced_integer_check in S.
  destruct S as [z S]. exists z. congruence.
Qed.

Lemma get_int_parsed (cls : modelcls) (qs : list (string * string))
    (modifiers : Dict.t jval) (key : string) (default : Z) :
  parse cls qs = Return modifiers ->
  key = "limit" \/ key = "page" ->
  exists z, get_int key default modifiers = Return z.
Proof.
  intros P K. unfold get_int.
  destruct (Dict.get key modifiers) as [v|] eqn:G; eauto.
  destruct (parse_integer_modifier _ _ P K G) as [z E]. subst. eauto.
Qed.

End Parser.

(** ** The collection pipeline *)

Section Pipeline.

Variable json_loads : string -> option jval.
Variable py_int : string -> option Z.
Variable py_str : jval -> string.
Variable sql_compare : jval -> jval -> comparison.

Local Abbreviation parse := (_parse_query_string json_loads py_int).
Local Abbreviation stages_ := (stages py_str sql_compare).
Local Abbreviation run_ := (run py_str sql_compare).
Local Abbreviation collection_ :=
  (collection json_loads py_int py_str sql_compare).

(** *** Pagination *)


Lemma paginate_items (query : list row) (page limit : Z) (p : pagination) :
  paginate query page limit = Return p ->
  items p = page_slice query page limit /\ 1 <= page /\ 0 <= limit.
Proof.
  unfold paginate.
  destruct (Z.ltb_spec page 1); [discriminate|].
  destruct (Z.ltb_spec limit 0); [discriminate|].
  destruct (_ && negb (page =? 1)); [discriminate|].
  intros E. inversion E. simpl. auto.
Qed.


Lemma select_params_parsed (cls : modelcls) (qs : list (string * string))
    (modifiers : Dict.t jval) :
  parse cls qs = Return modifiers ->
  exists params, select_params modifiers = Return params.
Proof.
  intros P. unfold select_params.
  destruct (Dict.get "select" modifiers) as [sel|] eqn:G; eauto.
  destruct (parse_select_valid _ _ _ _ P G) as [o [E _]]. subst. eauto.
Qed.

Lemma get_int_value (cls : modelcls) (qs : list (string * string))
    (modifiers : Dict.t jval) (key : string) (default : Z) :
  parse cls qs = Return modifiers ->
  key = "limit" \/ key = "page" ->
  get_int key default modifiers =
  Return match Dict.get key modifiers with
         | Some (JInt z) => z
         | _ => default
         end.
Proof.
  intros P K. unfold get_int.
  destruct (Dict.get key modifiers) as [v|] eqn:G; auto.
  destruct (parse_integer_modifier _ _ _ _ P K G) as [z E]. now subst.
Qed.


(** *** Field selection *)

Lemma split_select_spec (select : Dict.t jval) :
  split_select select =
  (map fst (filter (fun kv => truthy (snd kv)) select),
   map fst (filter (fun kv => negb (truthy (snd kv))) select)).
Proof.
  induction select as [|[k v] select IH]; simpl; auto.
  rewrite IH. destruct (truthy v); reflexivity.
Qed.

(** Claim C5: the keys of the select mapping with a true flag make the
    include list and the keys with a false flag the exclude list, each in
    the order of the mapping, and both may be non-empty together.  A record
    with the fields [a], [b], [c] is exported as [a] alone under the
    select [{a: 1}], and as [b], [c] under [{a: 0}]. *)
Theorem select_splits_into_include_and_exclude :
  (forall select,
     param "include" (_parse_select_modifier select) =
       map fst (filter (fun kv => truthy (snd kv)) select) /\
     param "exclude" (_parse_select_modifier select) =
       map fst (filter (fun kv => negb (truthy (snd kv))) select)) /\
  _parse_select_modifier [("a", JInt 1); ("b", JInt 0)] =
    [("include", ["a"]); ("exclude", ["b"])] /\
  (forall va vb vc,
     export_data [[("a", va); ("b", vb); ("c", vc)]]
                 (_parse_select_modifier [("a", JInt 1)]) =
     JList [JObj [("a", va)]]) /\
  (forall va vb vc,
     export_data [[("a", va); ("b", vb); ("c", vc)]]
                 (_parse_select_modifier [("a", JInt 0)]) =
     JList [JObj [("b", vb); ("c", vc)]]).
Proof.
  split; [|split; [reflexivity|split; reflexivity]].
  intros select. unfold _parse_select_modifier.
  rewrite split_select_spec.
  destruct (map fst (filter (fun kv => truthy (snd kv)) select));
    destruct (map fst (filter (fun kv => negb (truthy (snd kv))) select));
    split; reflexivity.
Qed.

(** *** Search *)


Lemma filter_all (A : Type) (f : A -> bool) (l : list A) :
  (forall x, f x = true) -> filter f l = l.
Proof.
  intros H. induction l as [|x l IH]; simpl; auto.
  rewrite H. congruence.
Qed.




(** *** Sort *)

Lemma sort_columns_raise (cls : modelcls) (entries : list string)
    (acc : list sort_key) :
  (exists entry, In entry entries /\
     hasattr cls (if startswith "-" entry then tail1 entry else entry)
     = false) ->
  exists entry, In entry entries /\
    hasattr cls (if startswith "-" entry then tail1 entry else entry)
    = false /\
    foldM (sort_column cls) entries acc =
    Raise (AttributeError
             (if startswith "-" entry then tail1 entry else entry)).
Proof.
  revert acc. induction entries as [|e entries IH]; intros acc [x [I H]].
  - destruct I.
  - destruct (hasattr cls (if startswith "-" e then tail1 e else e)) eqn:A.
    + assert (T : exists entry, In entry entries /\
                hasattr cls (if startswith "-" entry then tail1 entry
                             else entry) = false).
      { destruct I as [I|I]; [subst; congruence|eauto]. }
      destruct (getattr_present _ _ A) as [c [G _]].
      cbn [foldM]. unfold sort_column at 1.
      destruct (startswith "-" e); rewrite G; cbn [bind];
        match goal with
        | |- context [foldM _ _ ?acc'] =>
            destruct (IH acc' T) as [y [Iy [Hy R]]]
        end;
        exists y; (split; [now right|split; assumption]).
    + exists e. split; [now left|]. split; [assumption|].
      cbn [foldM]. unfold sort_column at 1.
      apply getattr_absent in A.
      destruct (startswith "-" e); rewrite A; reflexivity.
Qed.

(** Claim C10: the parser accepts any text as the sort modifier, and a
    sort entry that names no attribute of the model makes the sort stage
    raise an [AttributeError], which the wrapper does not handle. *)
Theorem sort_is_not_validated (default_limit max_limit : Z) (A : Type)
    (f : A -> modelcls) (a : A) (ctx : context) (db : table)
    (sort : string) :
  request_args ctx = [("sort", sort)] ->
  (exists entry, In entry (split "," sort) /\
     hasattr (f a) (if startswith "-" entry then tail1 entry else entry)
     = false) ->
  parse (f a) (request_args ctx) = Return [("sort", JStr sort)] /\
  exists entry, In entry (split "," sort) /\
    hasattr (f a) (if startswith "-" entry then tail1 entry else entry)
    = false /\
    collection_ default_limit max_limit f a ctx db =
    Raise (AttributeError
             (if startswith "-" entry then tail1 entry else entry)).
Proof.
  intros Q B. rewrite Q.
  assert (P : parse (f a) [("sort", sort)] = Return [("sort", JStr sort)])
    by reflexivity.
  split; [exact P|].
  destruct (sort_columns_raise (f a) (split "," sort) [] B)
    as [entry [I [H R]]].
  exists entry. split; [assumption|]. split; [assumption|].
  unfold collection. rewrite Q, P. cbn [bind].
  unfold run, stages, tenant_filters.
  destruct (hasattr (f a) "org_id") eqn:O;
    cbn [merged_filters Dict.get String.eqb Ascii.eqb Bool.eqb bind];
    unfold _filter_modifier, filter_by;
    cbn [Dict.keys map fst find];
    rewrite ?O; cbn [negb bind].
  all: unfold _sort_modifier; rewrite R; reflexivity.
Qed.

(** *** Tenant filter *)

(** The [filter] modifier is merged over the tenant filter: a key of the
    client wins over the tenant's. *)
Lemma merged_filters_client_wins (cls : modelcls) (ctx : context)
    (modifiers o : Dict.t jval) (k : string) (v : jval) :
  Dict.get "filter" modifiers = Some (JObj o) ->
  Dict.get k (rev o) = Some v ->
  exists filters,
    merged_filters (tenant_filters cls ctx) modifiers = Return filters /\
    Dict.get k filters = Some v.
Proof.
  intros G H. unfold merged_filters. rewrite G.
  eexists. split; [reflexivity|]. now rewrite get_update, H.
Qed.

End Pipeline.

(** ** Equality of values *)

Lemma jval_eqb_eq : forall a b, jval_eqb a b = true -> a = b.
Proof.
  fix IH 1. intros a b. destruct a as [|x|x|x|l|o], b as [|y|y|y|l'|o'];
    simpl; try discriminate.
  - reflexivity.
  - intros H. apply Bool.eqb_prop in H. now subst.
  - intros H. apply Z.eqb_eq in H. now subst.
  - intros H. apply String.eqb_eq in H. now subst.
  - intros H. f_equal. revert l l' H. fix IHl 1.
    intros [|x l] [|y l'] H; try discriminate; [reflexivity|].
    simpl in H. apply andb_prop in H. destruct H as [H1 H2].
    apply IH in H1. apply IHl in H2. now subst.
  - intros H. f_equal. revert o o' H. fix IHo 1.
    intros [|[k x] o] [|[k' y] o'] H; try discriminate; [reflexivity|].
    simpl in H. apply andb_prop in H. destruct H as [H H2].
    apply andb_prop in H. destruct H as [H0 H1].
    apply String.eqb_eq in H0. apply IH in H1. apply IHo in H2. now subst.
Qed.

Lemma jval_eqb_refl : forall a, jval_eqb a a = true.
Proof.
  fix IH 1. intros a. destruct a as [|x|x|x|l|o]; simpl.
  - reflexivity.
  - now destruct x.
  - apply Z.eqb_refl.
  - apply String.eqb_refl.
  - revert l. fix IHl 1. intros [|x l]; [reflexivity|].
    rewrite IH, IHl. reflexivity.
  - revert o. fix IHo 1. intros [|[k x] o]; [reflexivity|].
    rewrite String.eqb_refl, IH, IHo. reflexivity.
Qed.

Lemma jval_eqb_iff (a b : jval) : jval_eqb a b = true <-> a = b.
Proof.
  split; [apply jval_eqb_eq|]. intros E. subst. apply jval_eqb_refl.
Qed.

(** ** Tenant rows *)

Section Tenant.

Variable py_str : jval -> string.
Variable sql_compare : jval -> jval -> comparison.

Lemma insert_row_In (sorting : list sort_key) (r x : row) (l : list row) :
  In x (insert_row sql_compare sorting r l) <-> x = r \/ In x l.
Proof.
  induction l as [|y l IH]; simpl.
  - intuition.
  - destruct (compare_rows sql_compare sorting r y); simpl;
      rewrite ?IH; intuition.
Qed.

Lemma order_by_In (sorting : list sort_key) (query : list row) (x : row) :
  In x (order_by sql_compare query sorting) <-> In x query.
Proof.
  unfold order_by. induction query as [|r query IH]; simpl.
  - tauto.
  - rewrite insert_row_In, IH. intuition.
Qed.

Lemma search_keeps_rows (cls : modelcls) (query query' : list row)
    (search : jval) (r : row) :
  _search_modifier py_str cls query search = Return query' ->
  In r query' -> In r query.
Proof.
  unfold _search_modifier.
  destruct (getitem search "t") as [term| |]; try discriminate.
  destruct (getitem search "f") as [fields| |]; try discriminate.
  cbn [bind].
  destruct (names_of fields) as [names| |]; try discriminate.
  cbn [bind].
  destruct (foldM (search_column py_str cls term) names [])
    as [filters| |]; try discriminate.
  cbn [bind]. intros E. inversion E. subst.
  destruct (or_ filters); simpl; auto.
  intros I. now apply filter_In in I.
Qed.

Lemma sort_keeps_rows (cls : modelcls) (query query' : list row)
    (sort : jval) (r : row) :
  _sort_modifier sql_compare cls query sort = Return query' ->
  In r query' -> In r query.
Proof.
  unfold _sort_modifier. destruct sort; try discriminate.
  destruct (foldM (sort_column cls) (split "," s) []) as [sorting| |];
    try discriminate.
  cbn [bind]. intros E. inversion E. subst. apply order_by_In.
Qed.

(** X6: as long as the [filter] modifier has no [org_id] of its own, every
    row the filter, search and sort stages of a tenant-scoped collection
    return belongs to the current tenant. *)
Lemma tenant_rows_without_client_org_id (cls : modelcls) (ctx : context)
    (modifiers : Dict.t jval) (db : table) (query : list row) :
  hasattr cls "org_id" = true ->
  (forall o, Dict.get "filter" modifiers = Some (JObj o) ->
             Dict.get "org_id" o = None) ->
  stages py_str sql_compare cls ctx modifiers db = Return query ->
  forall r, In r query -> row_get "org_id" r = JInt (current_org_id ctx).
Proof.
  intros O C S r I. unfold stages, tenant_filters in S. rewrite O in S.
  destruct (merged_filters [("org_id", JInt (current_org_id ctx))] modifiers)
    as [filters| |] eqn:M; try discriminate.
  cbn [bind] in S.
  assert (G : Dict.get "org_id" filters = Some (JInt (current_org_id ctx))).
  { unfold merged_filters in M.
    destruct (Dict.get "filter" modifiers) as [[| | | | |o]|] eqn:F;
      try discriminate.
    - inversion M. subst. rewrite get_update.
      rewrite get_rev_none by now apply C. reflexivity.
    - inversion M. reflexivity. }
  destruct filters as [|kv filters]; [discriminate|].
  unfold _filter_modifier, filter_by in S.
  destruct (find _ _); [discriminate|]. cbn [bind] in S.
  assert (T : forall q, In r q ->
              incl q (filter (matches (kv :: filters)) db) ->
              row_get "org_id" r = JInt (current_org_id ctx)).
  { intros q Iq Q. apply Q in Iq. apply filter_In in Iq.
    destruct Iq as [_ Mt]. unfold matches in Mt.
    rewrite forallb_forall in Mt. apply get_In in G. apply Mt in G.
    now apply jval_eqb_eq in G. }
  destruct (Dict.get "search" modifiers) as [search|].
  - destruct (_search_modifier py_str cls _ search) as [q1| |] eqn:S1;
      try discriminate.
    cbn [bind] in S.
    destruct (Dict.get "sort" modifiers) as [sort|].
    + apply (sort_keeps_rows _ _ _ r S) in I.
      apply (T q1 I). intros x Ix. eapply search_keeps_rows; eauto.
    + inversion S. subst. apply (T query I).
      intros x Ix. eapply search_keeps_rows; eauto.
  - cbn [bind] in S.
    destruct (Dict.get "sort" modifiers) as [sort|].
    + apply (sort_keeps_rows _ _ _ r S) in I.
      apply (T _ I). apply incl_refl.
    + inversion S. subst. apply (T _ I). apply incl_refl.
Qed.

End Tenant.

(** ** Dictionaries with distinct keys *)

Lemma keys_set (V : Type) (k : string) (v : V) (d : Dict.t V) :
  NoDup (Dict.keys d) -> NoDup (Dict.keys (Dict.set k v d)).
Proof.
  unfold Dict.keys.
  assert (I : forall d k', In k' (map fst (Dict.set k v d)) ->
                           k' = k \/ In k' (map fst d)).
  { clear d. induction d as [|[k1 v1] d IH]; simpl; intros k' H.
    - destruct H as [H|[]]. now left.
    - destruct (String.eqb_spec k k1); simpl in H.
      + now right.
      + destruct H as [H|H]; [now right; left|].
        destruct (IH _ H); [now left|now right; right]. }
  induction d as [|[k1 v1] d IH]; simpl; intros N.
  - constructor; [intros []|constructor].
  - inversion N as [|? ? N1 N2]. subst.
    destruct (String.eqb_spec k k1); simpl.
    + now constructor.
    + constructor; [|now apply IH].
      intros H. destruct (I _ _ H); [congruence|contradiction].
Qed.

Lemma In_get (V : Type) (k : string) (v : V) (d : Dict.t V) :
  NoDup (Dict.keys d) -> In (k, v) d -> Dict.get k d = Some v.
Proof.
  unfold Dict.keys. induction d as [|[k1 v1] d IH]; simpl; intros N H.
  - destruct H.
  - inversion N as [|? ? N1 N2]. subst.
    destruct H as [H|H].
    + inversion H. subst. now rewrite String.eqb_refl.
    + destruct (String.eqb_spec k k1); [|now apply IH].
      subst. exfalso. apply N1. apply in_map_iff. exists (k1, v). auto.
Qed.

Lemma In_keys_get (V : Type) (k : string) (d : Dict.t V) :
  In k (Dict.keys d) -> exists v, Dict.get k d = Some v.
Proof.
  unfold Dict.keys. induction d as [|[k1 v1] d IH]; simpl; intros H.
  - destruct H.
  - destruct (String.eqb_spec k k1); eauto.
    destruct H as [H|H]; [congruence|auto].
Qed.

Lemma matches_get (filters : Dict.t jval) (r : row) :
  NoDup (Dict.keys filters) ->
  (matches filters r = true <->
   forall k v, Dict.get k filters = Some v -> row_get k r = v).
Proof.
  intros N. unfold matches. rewrite forallb_forall. split.
  - intros H k v G. apply get_In in G. apply H in G.
    now apply jval_eqb_eq in G.
  - intros H [k v] I. simpl. apply jval_eqb_iff. apply H.
    now apply In_get.
Qed.

Lemma filter_none (A : Type) (f : A -> bool) (l : list A) :
  (forall x, In x l -> f x = false) -> filter f l = [].
Proof.
  induction l as [|x l IH]; simpl; intros H; auto.
  rewrite (H x (or_introl eq_refl)). auto.
Qed.

(** ** The item view and the decorator *)

Section Item.

Variable json_loads : string -> option jval.
Variable py_int : string -> option Z.

Local Abbreviation item_view_ := (item_view json_loads py_int).

Lemma ident_of_get (ident_prop : list string) (kargs : Dict.t jval)
    (k : string) :
  Dict.get k (ident_of ident_prop kargs) =
  if mem_string k ident_prop then Some (row_get k kargs) else None.
Proof.
  unfold ident_of.
  assert (G : forall acc,
             Dict.get k (fold_left
                           (fun ident prop =>
                              Dict.set prop (row_get prop kargs) ident)
                           ident_prop acc) =
             if mem_string k ident_prop then Some (row_get k kargs)
             else Dict.get k acc).
  { induction ident_prop as [|p props IH]; intros acc; simpl; auto.
    rewrite IH. destruct (mem_string k props) eqn:M.
    - now rewrite orb_true_r.
    - rewrite orb_false_r. destruct (String.eqb_spec k p).
      + subst. apply get_set_same.
      + now apply get_set_other. }
  apply G.
Qed.

Lemma ident_of_keys (ident_prop : list string) (kargs : Dict.t jval) :
  NoDup (Dict.keys (ident_of ident_prop kargs)).
Proof.
  unfold ident_of.
  assert (G : forall acc : Dict.t jval,
             NoDup (Dict.keys acc) ->
             NoDup (Dict.keys
                      (fold_left
                         (fun ident prop =>
                            Dict.set prop (row_get prop kargs) ident)
                         ident_prop acc))).
  { induction ident_prop as [|p props IH]; intros acc N; simpl; auto.
    apply IH. now apply keys_set. }
  apply G. constructor.
Qed.

Lemma item_ident_keys (ident_prop : list string) (is_org : bool)
    (kargs : Dict.t jval) (ctx : context) :
  NoDup (Dict.keys (item_ident ident_prop is_org kargs ctx)).
Proof.
  unfold item_ident. destruct is_org.
  - apply keys_set, ident_of_keys.
  - apply ident_of_keys.
Qed.

Lemma item_ident_get (ident_prop : list string) (is_org : bool)
    (kargs : Dict.t jval) (ctx : context) (k : string) :
  Dict.get k (item_ident ident_prop is_org kargs ctx) =
  if is_org && String.eqb k "org_id" then Some (JInt (current_org_id ctx))
  else if mem_string k ident_prop then Some (row_get k kargs)
  else None.
Proof.
  unfold item_ident. destruct is_org; simpl.
  - destruct (String.eqb_spec k "org_id").
    + subst. apply get_set_same.
    + rewrite get_set_other by assumption. apply ident_of_get.
  - apply ident_of_get.
Qed.

(** The lookup of the item view matches a row exactly when every
    identifier column holds the path value of its name, and the tenant
    column the current tenant when the resource is tenant-scoped. *)
Lemma item_ident_matches (ident_prop : list string) (is_org : bool)
    (kargs : Dict.t jval) (ctx : context) (r : row) :
  matches (item_ident ident_prop is_org kargs ctx) r = true <->
  (forall p, In p ident_prop ->
     (is_org = true /\ p = "org_id") \/ row_get p r = row_get p kargs) /\
  (is_org = true -> row_get "org_id" r = JInt (current_org_id ctx)).
Proof.
  rewrite matches_get by apply item_ident_keys. split.
  - intros H. split.
    + intros p I. specialize (H p). rewrite item_ident_get in H.
      destruct is_org; simpl in H.
      * destruct (String.eqb_spec p "org_id"); [now left|].
        right. apply H. apply mem_string_In in I. now rewrite I.
      * right. apply H. apply mem_string_In in I. now rewrite I.
    + intros O. subst. apply H. rewrite item_ident_get. reflexivity.
  - intros [H1 H2] k v G. rewrite item_ident_get in G.
    destruct is_org; simpl in G.
    + destruct (String.eqb_spec k "org_id").
      * subst. inversion G. now apply H2.
      * destruct (mem_string k ident_prop) eqn:M; [|discriminate].
        inversion G. apply mem_string_In in M.
        destruct (H1 k M) as [[_ E]|E]; congruence.
    + destruct (mem_string k ident_prop) eqn:M; [|discriminate].
      inversion G. apply mem_string_In in M.
      destruct (H1 k M) as [[E _]|E]; congruence.
Qed.

Lemma item_filter_by (cls : modelcls) (ident_prop : list string)
    (is_org : bool) (kargs : Dict.t jval) (ctx : context) (db : table) :
  (forall p, In p ident_prop -> hasattr cls p = true) ->
  (is_org = true -> hasattr cls "org_id" = true) ->
  filter_by cls db (item_ident ident_prop is_org kargs ctx) =
  Return (filter (matches (item_ident ident_prop is_org kargs ctx)) db).
Proof.
  intros H O. unfold filter_by.
  destruct (find _ _) as [k|] eqn:F; auto.
  apply find_some in F. destruct F as [I N].
  apply In_keys_get in I. destruct I as [v G].
  rewrite item_ident_get in G.
  destruct is_org; simpl in G.
  - destruct (String.eqb_spec k "org_id").
    + subst. rewrite O in N; auto. discriminate.
    + destruct (mem_string k ident_prop) eqn:M; [|discriminate].
      apply mem_string_In in M. rewrite H in N; auto. discriminate.
  - destruct (mem_string k ident_prop) eqn:M; [|discriminate].
    apply mem_string_In in M. rewrite H in N; auto. discriminate.
Qed.

(** Claim C8: the item view looks up the rows whose identifier columns all
    equal the path values (and whose tenant column is the current tenant
    when the resource is tenant-scoped).  When no row matches it aborts
    with 404 and leaves the table as it is; a [GET] that finds exactly one
    row returns that row. *)
Theorem item_lookup_by_all_identifiers (cls : modelcls)
    (ident_prop : list string) (schema : Dict.t rules) (is_org : bool)
    (kargs : Dict.t jval) (ctx : context) (db : table) :
  (forall p, In p ident_prop -> hasattr cls p = true) ->
  (is_org = true -> hasattr cls "org_id" = true) ->
  let wanted r :=
    (forall p, In p ident_prop ->
       (is_org = true /\ p = "org_id") \/ row_get p r = row_get p kargs) /\
    (is_org = true -> row_get "org_id" r = JInt (current_org_id ctx)) in
  ((forall r, In r db -> ~ wanted r) ->
   item_view_ cls ident_prop schema is_org kargs ctx db = (Abort 404, db)) /\
  (forall r,
     request_method ctx = "GET" ->
     (item_view_ cls ident_prop schema is_org kargs ctx db =
        (Return (RetObj (PModel cls r)), db) <->
      filter (matches (item_ident ident_prop is_org kargs ctx)) db = [r])) /\
  (forall r,
     In r (filter (matches (item_ident ident_prop is_org kargs ctx)) db) <->
     In r db /\ wanted r).
Proof.
  intros H O wanted.
  assert (W : forall r,
             matches (item_ident ident_prop is_org kargs ctx) r = true <->
             wanted r).
  { intros r. apply item_ident_matches. }
  split; [|split].
  - intros N. unfold item_view. rewrite item_filter_by by assumption.
    rewrite filter_none; auto.
    intros r I. destruct (matches _ r) eqn:M; auto.
    apply W in M. now apply N in I.
  - intros r G. unfold item_view. rewrite item_filter_by by assumption.
    rewrite G. cbn [String.eqb Ascii.eqb Bool.eqb].
    destruct (filter _ db) as [|r1 [|r2 rs]].
    + split; discriminate.
    + split; congruence.
    + split; discriminate.
  - intros r. rewrite filter_In. now rewrite W.
Qed.

(** *** The decorator *)

Local Abbreviation json_ := (json json_loads).


(** A [PATCH] without a JSON content type reaches the validator with no
    payload. *)
Lemma patch_without_json_content_type (cls : modelcls)
    (ident_prop : list string) (schema : Dict.t rules) (is_org : bool)
    (kargs : Dict.t jval) (ctx : context) (db : table) (model : row) :
  request_method ctx = "PATCH" ->
  request_is_json ctx = false ->
  filter_by cls db (item_ident ident_prop is_org kargs ctx) = Return [model] ->
  json_ (item_view_ cls ident_prop schema is_org kargs) ctx db =
  (Raise DocumentError, db).
Proof.
  intros M J F. unfold json, call, item_view, get_json.
  rewrite M, F, J. reflexivity.
Qed.

End Item.

(** ** Route rules *)

Lemma append_assoc (a b c : string) :
  ((a ++ b) ++ c = a ++ (b ++ c))%string.
Proof. induction a as [|x a IH]; simpl; congruence. Qed.

Lemma drop_last_char (s : string) (c : ascii) :
  drop_last (s ++ String c EmptyString) = s.
Proof.
  induction s as [|d s IH]; auto.
  simpl. rewrite IH. destruct s; reflexivity.
Qed.

Lemma split_cons (sep : ascii) (s : string) :
  exists w ws, split sep s = w :: ws.
Proof.
  destruct s as [|c s]; simpl; eauto.
  destruct (Ascii.eqb c sep); eauto.
  destruct (split sep s); eauto.
Qed.

Lemma join_cons_char (sep : string) (c : ascii) (w : string)
    (ws : list string) :
  join sep (String c w :: ws) = String c (join sep (w :: ws)).
Proof. destruct ws; reflexivity. Qed.

(** ["-".join(name.split("_"))] puts a dash for every underscore. *)
Lemma join_split_replace (s : string) :
  join "-" (split "_" s) = replace_char "_" "-" s.
Proof.
  unfold replace_char. induction s as [|c s IH]; auto.
  cbn [split map_chars]. destruct (Ascii.eqb c "_") eqn:E.
  - destruct (split_cons "_" s) as [w [ws S]]. rewrite S in *.
    rewrite <- IH. reflexivity.
  - destruct (split_cons "_" s) as [w [ws S]]. rewrite S in *.
    rewrite join_cons_char. now rewrite IH.
Qed.

Lemma route_columns (cls : modelcls) (names : list string)
    (cols acc : list column) :
  Forall2 (fun n c => getattr cls n = Return c) names cols ->
  foldM (fun cs name => c <- getattr_arg cls name ;; Return (cs ++ [c]))
        (map ArgStr names) acc = Return (acc ++ cols).
Proof.
  intros F. revert acc. induction F as [|n c names cols G F IH]; intros acc.
  - simpl. now rewrite app_nil_r.
  - cbn [map foldM getattr_arg]. rewrite G. cbn [bind].
    rewrite IH, <- app_assoc. reflexivity.
Qed.

Lemma route_variables (cols : list column) (c : column) (rule : string) :
  fold_left (fun rule c => (rule ++ route_variable c ++ ",")%string)
            (c :: cols) rule =
  (rule ++ join "," (map route_variable (c :: cols)) ++ ",")%string.
Proof.
  revert c rule. induction cols as [|d cols IH]; intros c rule.
  - reflexivity.
  - cbn [fold_left] in *. rewrite IH.
    change (join "," (map route_variable (c :: d :: cols)))
      with (route_variable c ++ "," ++
            join "," (map route_variable (d :: cols)))%string.
    now rewrite !append_assoc.
Qed.

Lemma generated_rules (base_url : string) (cls : modelcls)
    (names : list string) (cols : list column) (is_org : bool) :
  Forall2 (fun n c => getattr cls n = Return c) names cols ->
  names <> [] ->
  _generate_route_rules base_url cls (map ArgStr names) is_org =
  Return ((if is_org then "/orgs/<aud:orgname>/" else "/") ++ base_url,
          (if is_org then "/orgs/<aud:orgname>/" else "/") ++ base_url
            ++ "/" ++ join "," (map route_variable cols))%string.
Proof.
  intros F N. unfold _generate_route_rules.
  rewrite (@route_columns cls names cols [] F). cbn [bind app].
  destruct cols as [|c cols]; [inversion F; congruence|].
  rewrite route_variables.
  replace (if is_org then "/orgs/<aud:orgname>/" ++ base_url
           else "/" ++ base_url)%string
    with ((if is_org then "/orgs/<aud:orgname>/" else "/") ++ base_url)%string
    by now destruct is_org.
  set (prefix := (if is_org then "/orgs/<aud:orgname>/" else "/")%string).
  rewrite <- !append_assoc. rewrite drop_last_char.
  now rewrite !append_assoc.
Qed.

(** Claim C9, as the code has it: the list rule is the table name with a
    dash for every underscore, unless a base URL is given, after ["/"] (or
    after the tenant prefix for a tenant-scoped model); the item rule adds
    one variable per identifier column, separated by commas, with the type
    [int] for integer columns and [string] otherwise.  The identifier
    columns are the primary-key columns, or the one column named by
    [ident]. *)
Theorem route_rules_from_table_and_identifiers (cls : modelcls)
    (base_url : option string) (ident : option pyarg)
    (methods : option (Dict.t (list string))) (secure : bool)
    (resource_name parent_resource : option string)
    (names : list string) (cols : list column) :
  (ident = None /\ names = mc_primary_key cls) \/
  (exists s, ident = Some (ArgStr s) /\ s <> EmptyString /\ names = [s]) ->
  names <> [] ->
  Forall2 (fun n c => getattr cls n = Return c) names cols ->
  let base := or_else base_url (replace_char "_" "-" (mc_tablename cls)) in
  let list_url :=
    ((if hasattr cls "org_id" then "/orgs/<aud:orgname>/" else "/")
       ++ base)%string in
  let item_url :=
    (list_url ++ "/" ++ join "," (map route_variable cols))%string in
  (forall c,
     route_variable c =
     ("<" ++ match col_python_type c with
             | PyInt => "int"
             | _ => "string"
             end ++ ":" ++ col_name c ++ ">")%string) /\
  exists rules,
    add_resource cls base_url ident methods secure resource_name
                 parent_resource = Return rules /\
    forall u, In u rules ->
      rule u = match rule_view u with
               | ItemView => item_url
               | _ => list_url
               end.
Proof.
  intros I N F base list_url item_url. split.
  - intros c. unfold route_variable, route_type, type_mapping.
    destruct (col_python_type c); reflexivity.
  - unfold add_resource. rewrite join_split_replace. fold base.
    assert (E : match ident with
                | Some i =>
                    if arg_truthy i then [i]
                    else map ArgStr (mc_primary_key cls)
                | None => map ArgStr (mc_primary_key cls)
                end = map ArgStr names).
    { destruct I as [[I1 I2]|[s [I1 [I2 I3]]]]; subst; auto.
      simpl. destruct (String.eqb_spec s EmptyString); [congruence|auto]. }
    rewrite E, (generated_rules base cls (hasattr cls "org_id") F N).
    cbn [bind]. rewrite <- append_assoc. fold list_url. fold item_url.
    eexists. split; [reflexivity|].
    intros u H.
    repeat (apply in_app_or in H; destruct H as [H|H]);
      match type of H with
      | In _ (if ?b then _ else _) => destruct b
      end;
      simpl in H; try contradiction;
      destruct H as [H|H]; try contradiction; subst u; reflexivity.
Qed.

(** * The claims on the sample data *)

(** Claim C1 fails on the code: the [filter] modifier is merged over the
    tenant filter with [dict.update], so a client of tenant 1 that sends
    [filter={"org_id": 2}] is served the records of tenant 2. *)
Theorem tenant_filter_overridden_by_client_filter :
  current_org_id (Sample.get [("filter", Sample.text_org2)]) = 1 /\
  Sample.list_products (Sample.get [("filter", Sample.text_org2)])
                       Sample.products =
  Return (RetTuple
            (PValue (JList [JObj (Sample.product 5 2 "Explosive")]))
            (SHeaders [("X-Total", JInt 1); ("X-Page", JInt 1)])
            None).
Proof. split; reflexivity. Qed.

(** Without a [filter] modifier the same client sees its own records. *)
Example tenant_filter_alone :
  Sample.list_products (Sample.get []) Sample.products =
  Return (RetTuple
            (PValue (JList (map JObj [Sample.product 1 1 "Anvil";
                                      Sample.product 12 1 "Bolt";
                                      Sample.product 3 1 "Chisel";
                                      Sample.product 21 1 "Drill"])))
            (SHeaders [("X-Total", JInt 4); ("X-Page", JInt 1)])
            None).
Proof. reflexivity. Qed.


Example patch_without_json_outcome :
  json Sample.loads (Sample.product_item [("id", JInt 12)])
       Sample.patch_form Sample.products =
  (Raise DocumentError, Sample.products) /\
  json Sample.loads (Sample.product_item [("id", JInt 99)])
       Sample.patch_form Sample.products =
  (Abort 404, Sample.products).
Proof. split; reflexivity. Qed.

(** Claim C3 as stated fails: with two invalid JSON values the error names
    the first key only. *)
Lemma second_invalid_json_not_reported :
  Sample.loads "{" = None /\
  exists e,
    _parse_query_string Sample.loads Sample.int Sample.Product
      [("select", "{"); ("filter", "{")] = Raise (ValidationError e) /\
    Dict.get "select" e = Some (Message "Invalid JSON string") /\
    Dict.get "filter" e = None.
Proof.
  split; [reflexivity|].
  exists [("select", Message "Invalid JSON string")].
  repeat split; reflexivity.
Qed.

Lemma parse_raises_at_first_invalid_json_witness :
  _parse_query_string Sample.loads Sample.int Sample.Product
    [("sort", "-name"); ("select", "{"); ("filter", "{")] =
  Raise (ValidationError [("select", Message "Invalid JSON string")]).
Proof.
  apply (parse_raises_at_first_invalid_json Sample.loads Sample.int
           Sample.Product
           [("sort", "-name"); ("select", "{"); ("filter", "{")]
           [("sort", "-name")] "select" "{" [("filter", "{")]).
  - reflexivity.
  - intros k v [E|[]] M. inversion E. subst. discriminate M.
  - reflexivity.
  - reflexivity.
Defined.

(** Claim C6 as stated fails: the value 5 is no boolean and the select
    modifier is accepted. *)
Lemma select_accepts_an_integer :
  Sample.loads Sample.text_id5 = Some (JObj [("id", JInt 5)]) /\
  _parse_query_string Sample.loads Sample.int Sample.Product
    [("select", Sample.text_id5)] =
  Return [("select", JObj [("id", JInt 5)])].
Proof. split; reflexivity. Qed.

(** Claim C9 as stated fails: [ident] is no list of columns; a list of the
    two key columns is refused by the attribute lookup. *)
Lemma ident_list_is_refused :
  add_resource Sample.OrderLine None
    (Some (ArgList ["order_id"; "product_id"])) None true None None =
  Raise TypeError.
Proof. reflexivity. Qed.



(** The search term reaches [ILIKE] unescaped: a term of one escape
    character is not free of pattern characters, and over the names it
    finds the one that ends in a percent sign, not the ones that hold a
    backslash. *)
Example search_term_escape_character :
  let term := String escape_char EmptyString in
  let slashed := ("a" ++ term ++ "b")%string in
  wildcard_free term = false /\
  contains term slashed = true /\
  _search_modifier Sample.str Sample.Product
    [Sample.product 1 1 "50%"; Sample.product 2 1 slashed;
     Sample.product 3 1 "5%0"]
    (JObj [("t", JStr term); ("f", JList [JStr "name"])]) =
  Return [Sample.product 1 1 "50%"].
Proof. repeat split. Qed.


Lemma item_lookup_by_all_identifiers_witness :
  Sample.order_line_item [("order_id", JInt 5); ("product_id", JInt 9)]
                         (Sample.get []) Sample.order_lines =
  (Return (RetObj (PModel Sample.OrderLine (Sample.order_line 5 9 "box"))),
   Sample.order_lines).
Proof.
  destruct (@item_lookup_by_all_identifiers
              Sample.loads Sample.int Sample.OrderLine
              ["order_id"; "product_id"] (mc_schema Sample.OrderLine) false
              [("order_id", JInt 5); ("product_id", JInt 9)]
              (Sample.get []) Sample.order_lines)
    as [_ [G _]].
  - intros p [E|[E|[]]]; subst; reflexivity.
  - discriminate.
  - apply G; reflexivity.
Defined.

Lemma route_rules_from_table_and_identifiers_witness :
  exists rules,
    add_resource Sample.OrderLine None None None true None None
    = Return rules /\
    forall u, In u rules ->
      rule u = match rule_view u with
               | ItemView => "/order-line/<int:order_id>,<int:product_id>"
               | _ => "/order-line"
               end.
Proof.
  destruct (@route_rules_from_table_and_identifiers
              Sample.OrderLine None None None true None None
              ["order_id"; "product_id"]
              [Column "order_id" PyInt; Column "product_id" PyInt])
    as [_ H].
  - left. split; reflexivity.
  - discriminate.
  - repeat constructor.
  - exact H.
Defined.

Lemma sort_is_not_validated_witness :
  _parse_query_string Sample.loads Sample.int Sample.Product
    [("sort", "-name,nope")] = Return [("sort", JStr "-name,nope")] /\
  exists entry, In entry (split "," "-name,nope") /\
    hasattr Sample.Product
      (if startswith "-" entry then tail1 entry else entry) = false /\
    Sample.list_products (Sample.get [("sort", "-name,nope")])
                         Sample.products =
    Raise (AttributeError
             (if startswith "-" entry then tail1 entry else entry)).
Proof.
  apply (@sort_is_not_validated
           Sample.loads Sample.int Sample.str Sample.compare 30 100
           unit (fun _ => Sample.Product) tt
           (Sample.get [("sort", "-name,nope")]) Sample.products
           "-name,nope").
  - reflexivity.
  - exists "nope". split; [simpl; auto|reflexivity].
Defined.

Example sort_by_missing_column :
  Sample.list_products (Sample.get [("sort", "-name,nope")]) Sample.products
  = Raise (AttributeError "nope").
Proof. reflexivity. Qed.

Example composite_key_other_combination :
  Sample.order_line_item [("order_id", JInt 9); ("product_id", JInt 5)]
                         (Sample.get []) Sample.order_lines =
  (Return (RetObj (PModel Sample.OrderLine (Sample.order_line 9 5 "bag"))),
   Sample.order_lines) /\
  Sample.order_line_item [("order_id", JInt 5); ("product_id", JInt 7)]
                         (Sample.get []) Sample.order_lines =
  (Abort 404, Sample.order_lines).
Proof. split; reflexivity. Qed.

Example tenant_item_of_other_tenant :
  Sample.product_item [("id", JInt 5)] (Sample.get []) Sample.products =
  (Abort 404, Sample.products).
Proof. reflexivity. Qed.

(** * Further properties of the module *)

(** ** The list endpoint *)

Section Listing.

Variable json_loads : string -> option jval.
Variable py_int : string -> option Z.
Variable py_str : jval -> string.
Variable sql_compare : jval -> jval -> comparison.

Local Abbreviation parse := (_parse_query_string json_loads py_int).
Local Abbreviation stages_ := (stages py_str sql_compare).
Local Abbreviation run_ := (run py_str sql_compare).
Local Abbreviation collection_ :=
  (collection json_loads py_int py_str sql_compare).
Local Abbreviation list_endpoint_ :=
  (list_endpoint json_loads py_int py_str sql_compare).

(** The shortcut of [paginate] for a short first page counts the same rows
    as the query. *)
Lemma paginate_total (query : list row) (page limit : Z) (p : pagination) :
  paginate query page limit = Return p ->
  total p = Z.of_nat (length query).
Proof.
  unfold paginate.
  destruct (Z.ltb_spec page 1); [discriminate|].
  destruct (Z.ltb_spec limit 0); [discriminate|].
  destruct (_ && negb (page =? 1)); [discriminate|].
  intros E. inversion E. clear E. simpl.
  destruct (Z.eqb_spec page 1); simpl; auto.
  destruct (Z.ltb_spec (Z.of_nat (length (page_slice query page limit)))
                       limit); auto.
  subst page. unfold page_slice in *. simpl in *.
  rewrite length_firstn in *. lia.
Qed.

Lemma page_slice_past_end (query : list row) (page limit : Z) :
  1 <= page -> 0 <= limit ->
  Z.of_nat (length query) <= (page - 1) * limit ->
  page_slice query page limit = [].
Proof.
  intros P L H. unfold page_slice.
  rewrite skipn_all2 by lia. apply firstn_nil.
Qed.

Lemma run_returns (default_limit max_limit : Z) (cls : modelcls)
    (ctx : context) (qs : list (string * string)) (modifiers : Dict.t jval)
    (db : table) (query : list row) :
  parse cls qs = Return modifiers ->
  stages_ cls ctx modifiers db = Return query ->
  let limit :=
    Z.min match Dict.get "limit" modifiers with
          | Some (JInt z) => z
          | _ => default_limit
          end max_limit in
  let page :=
    match Dict.get "page" modifiers with
    | Some (JInt z) => z
    | _ => 1
    end in
  exists params,
    select_params modifiers = Return params /\
    run_ default_limit max_limit cls ctx modifiers db =
    if (page <? 1) || (limit <? 0)
       || (match page_slice query page limit with
           | [] => true
           | _ :: _ => false
           end && negb (page =? 1))
    then Abort 404
    else Return
           (RetTuple
              (PValue (export_data (page_slice query page limit) params))
              (SHeaders [("X-Total", JInt (Z.of_nat (length query)));
                         ("X-Page", JInt page)])
              None).
Proof.
  intros P S limit page.
  assert (GP : get_int "page" 1 modifiers = Return page).
  { eapply get_int_value; eauto. }
  assert (GL : get_int "limit" default_limit modifiers =
               Return match Dict.get "limit" modifiers with
                      | Some (JInt z) => z
                      | _ => default_limit
                      end).
  { eapply get_int_value; eauto. }
  destruct (select_params_parsed _ _ _ _ P) as [params SP].
  exists params. split; [assumption|].
  unfold run. rewrite S, GP, GL. cbn [bind]. fold limit.
  destruct (paginate query page limit) as [p| |] eqn:PG.
  - pose proof (paginate_total _ _ _ PG) as T.
    pose proof (paginate_items _ _ _ PG) as [I _].
    unfold paginate in PG.
    destruct (page <? 1); [discriminate|].
    destruct (limit <? 0); [discriminate|].
    destruct (_ && negb (page =? 1)); [discriminate|].
    cbn [bind orb]. rewrite SP. cbn [bind]. now rewrite I, T.
  - unfold paginate in PG.
    destruct (page <? 1); [cbn [orb bind]; congruence|].
    destruct (limit <? 0); [cbn [orb bind]; congruence|].
    destruct (_ && negb (page =? 1)); [cbn [orb bind]; congruence|].
    discriminate.
  - unfold paginate in PG.
    destruct (page <? 1); [discriminate|].
    destruct (limit <? 0); [discriminate|].
    destruct (_ && negb (page =? 1)); discriminate.
Qed.

Lemma list_endpoint_run (cls : modelcls) (kargs : Dict.t jval)
    (ctx : context) (db : table) (modifiers : Dict.t jval) :
  request_method ctx <> "POST" ->
  parse cls (request_args ctx) = Return modifiers ->
  list_endpoint_ cls kargs ctx db =
  (ro <- run_ 30 100 cls ctx modifiers db ;; Return (to_response ro), db).
Proof.
  intros M P. unfold list_endpoint, json.
  destruct (String.eqb_spec (request_method ctx) "POST"); [congruence|].
  unfold call, reading, collection, list_view_func. now rewrite P.
Qed.

(** X1: a request to the list endpoint whose page is at least 1, whose
    limit is not negative and whose page is the first or holds a row is
    answered with status 200, the export of that page as body, and the
    headers [X-Total], the number of all rows the filter and search stages
    left whatever the page, and [X-Page], the page asked for; the table is
    left as it is. *)
Theorem list_endpoint_response (cls : modelcls) (kargs : Dict.t jval)
    (ctx : context) (db : table) (modifiers : Dict.t jval)
    (query : list row) :
  request_method ctx <> "POST" ->
  parse cls (request_args ctx) = Return modifiers ->
  stages_ cls ctx modifiers db = Return query ->
  let limit :=
    Z.min match Dict.get "limit" modifiers with
          | Some (JInt z) => z
          | _ => 30
          end 100 in
  let page :=
    match Dict.get "page" modifiers with
    | Some (JInt z) => z
    | _ => 1
    end in
  1 <= page -> 0 <= limit ->
  page = 1 \/ page_slice query page limit <> [] ->
  exists params,
    select_params modifiers = Return params /\
    list_endpoint_ cls kargs ctx db =
    (Return {| status_code := 200;
               resp_headers :=
                 [("X-Total", JInt (Z.of_nat (length query)));
                  ("X-Page", JInt page)];
               body := export_data (page_slice query page limit) params |},
     db).
Proof.
  intros M P S limit page HP HL H.
  destruct (@run_returns 30 100 cls ctx _ modifiers db query P S)
    as [params [SP R]].
  exists params. split; [assumption|].
  rewrite (@list_endpoint_run cls kargs ctx db modifiers M P), R.
  fold limit. fold page.
  destruct (Z.ltb_spec page 1); [lia|].
  destruct (Z.ltb_spec limit 0); [lia|].
  cbn [orb]. destruct H as [H|H].
  - rewrite H. rewrite andb_false_r. reflexivity.
  - destruct (page_slice query page limit); [congruence|]. reflexivity.
Qed.

(** X2: the parser puts no bounds on page and limit; a page below 1 or a
    negative limit is answered by a 404 abort before any row is fetched,
    and so is a page after the first that holds no row (as when it starts
    at or past the end of the rows), as long as its offset
    [(page - 1) * limit] is one the database accepts, that is, at most
    [2^63 - 1]; beyond that the database refuses the query and the
    statement says nothing. *)
Theorem list_endpoint_aborts_out_of_range (cls : modelcls)
    (kargs : Dict.t jval) (ctx : context) (db : table)
    (modifiers : Dict.t jval) (query : list row) :
  request_method ctx <> "POST" ->
  parse cls (request_args ctx) = Return modifiers ->
  stages_ cls ctx modifiers db = Return query ->
  let limit :=
    Z.min match Dict.get "limit" modifiers with
          | Some (JInt z) => z
          | _ => 30
          end 100 in
  let page :=
    match Dict.get "page" modifiers with
    | Some (JInt z) => z
    | _ => 1
    end in
  page < 1 \/ limit < 0 \/
  (1 < page /\ 0 <= limit /\
   (page - 1) * limit <= max_offset /\
   (page_slice query page limit = [] \/
    Z.of_nat (length query) <= (page - 1) * limit)) ->
  list_endpoint_ cls kargs ctx db = (Abort 404, db).
Proof.
  intros M P S limit page H.
  destruct (@run_returns 30 100 cls ctx _ modifiers db query P S)
    as [params [SP R]].
  rewrite (@list_endpoint_run cls kargs ctx db modifiers M P), R.
  fold limit. fold page.
  destruct (Z.ltb_spec page 1); [reflexivity|].
  destruct (Z.ltb_spec limit 0); [reflexivity|].
  cbn [orb]. destruct H as [H|[H|[Hp [Hl [_ Hs]]]]]; try lia.
  assert (E : page_slice query page limit = []).
  { destruct Hs as [Hs|Hs]; [assumption|].
    apply page_slice_past_end; lia. }
  rewrite E. destruct (Z.eqb_spec page 1); [lia|]. reflexivity.
Qed.

(** X3: with an empty query string the collection returns the first
    [min(default_limit, max_limit)] rows of the table (of the tenant's rows
    for a tenant-scoped model), every field exported, as page 1, and
    [X-Total] counts those rows; a negative limit configured this way
    aborts with 404. *)
Theorem collection_without_query_string (default_limit max_limit : Z)
    (A : Type) (f : A -> modelcls) (a : A) (ctx : context) (db : table) :
  request_args ctx = [] ->
  let rows := filter (matches (tenant_filters (f a) ctx)) db in
  collection_ default_limit max_limit f a ctx db =
  if Z.min default_limit max_limit <? 0 then Abort 404
  else Return
         (RetTuple
            (PValue
               (JList (map (export_row [] [])
                           (firstn (Z.to_nat (Z.min default_limit max_limit))
                                   rows))))
            (SHeaders [("X-Total", JInt (Z.of_nat (length rows)));
                       ("X-Page", JInt 1)])
            None).
Proof.
  intros Q rows. unfold collection. rewrite Q.
  assert (P : parse (f a) [] = Return []) by reflexivity.
  rewrite P. cbn [bind].
  assert (S : stages_ (f a) ctx [] db = Return rows).
  { unfold stages, rows, tenant_filters.
    destruct (hasattr (f a) "org_id") eqn:O;
      cbn [merged_filters Dict.get bind];
      unfold _filter_modifier, filter_by;
      cbn [Dict.keys map fst find];
      rewrite ?O; cbn [negb bind]; auto.
    now rewrite filter_all. }
  destruct (@run_returns default_limit max_limit (f a) ctx [] [] db rows P S)
    as [params [SP R]].
  rewrite R. cbn [Dict.get]. cbn [select_params Dict.get] in SP.
  assert (E : params = []) by congruence. subst params.
  change (1 <? 1) with false. change (negb (1 =? 1)) with false.
  rewrite andb_false_r. cbn [orb].
  destruct (Z.min default_limit max_limit <? 0); [reflexivity|].
  unfold page_slice, export_data. reflexivity.
Qed.

End Listing.

(** ** Parsed modifiers *)

Lemma keys_set_In (V : Type) (k k' : string) (v : V) (d : Dict.t V) :
  In k' (Dict.keys (Dict.set k v d)) -> k' = k \/ In k' (Dict.keys d).
Proof.
  unfold Dict.keys. induction d as [|[k1 v1] d IH]; simpl; intros H.
  - destruct H as [H|[]]. now left.
  - destruct (String.eqb_spec k k1); simpl in H.
    + now right.
    + destruct H as [H|H]; [now right; left|].
      destruct (IH H); [now left|now right; right].
Qed.

Lemma keys_update_In (V : Type) (k : string) (d e : Dict.t V) :
  In k (Dict.keys (Dict.update d e)) ->
  In k (Dict.keys d) \/ In k (Dict.keys e).
Proof.
  unfold Dict.update. revert d.
  induction e as [|[k1 v1] e IH]; simpl; intros d H; auto.
  apply IH in H. destruct H as [H|H]; [|now right; right].
  apply keys_set_In in H. destruct H as [H|H]; [right; now left|now left].
Qed.

Lemma check_entries_keys (f : string -> jval -> jval * list verror)
    (o : Dict.t jval) :
  Dict.keys (fst (check_entries f o)) = Dict.keys o.
Proof.
  unfold Dict.keys. induction o as [|[k v] o IH]; simpl; auto.
  destruct (f k v) as [w es]. destruct (check_entries f o) as [o' errs].
  simpl in *. congruence.
Qed.

Section Modifiers.

Variable json_loads : string -> option jval.
Variable py_int : string -> option Z.

Local Abbreviation parse := (_parse_query_string json_loads py_int).

Lemma checkers_get (update : bool) (sch : Dict.t rules) (k : string) :
  Dict.get k (checkers py_int update sch) =
  option_map (check_rules py_int update) (Dict.get k sch).
Proof.
  unfold checkers. induction sch as [|[k1 r1] sch IH]; simpl; auto.
  destruct (String.eqb k k1); auto.
Qed.

Lemma known_field (update : bool) (sch : Dict.t rules) (k : string)
    (v : jval) :
  snd (field_checker (checkers py_int update sch) k v) = [] ->
  Dict.mem k sch = true.
Proof.
  unfold field_checker, Dict.mem. rewrite checkers_get.
  destruct (Dict.get k sch); simpl; [reflexivity|discriminate].
Qed.

Lemma filter_rules_check (sch : Dict.t rules) (v : jval) :
  snd (check_rules py_int true (filter_rules sch) v) = [] ->
  exists o,
    v = JObj o /\
    fst (check_rules py_int true (filter_rules sch) v) =
      JObj (fst (check_entries (field_checker (checkers py_int true sch)) o))
    /\ snd (check_entries (field_checker (checkers py_int true sch)) o) = [].
Proof.
  destruct v; try (simpl; discriminate).
  cbn [check_rules filter_rules r_coerce_int r_type r_nullable r_allowed
       r_valueschema r_schema coerce type_ok has_type negb check_allowed
       app].
  fold (checkers py_int true sch).
  destruct (check_entries (field_checker (checkers py_int true sch)) o)
    as [o' es] eqn:C.
  rewrite app_nil_r. destruct es; [|discriminate].
  intros _. exists o. now rewrite C.
Qed.

Lemma parse_filter_valid (cls : modelcls) (qs : list (string * string))
    (modifiers : Dict.t jval) (f : jval) :
  parse cls qs = Return modifiers ->
  Dict.get "filter" modifiers = Some f ->
  exists o, f = JObj o /\
    forall k, In k (Dict.keys o) -> Dict.mem k (mc_schema cls) = true.
Proof.
  intros P G. unfold _parse_query_string in P.
  destruct (decode json_loads (to_dict qs)) as [d| |] eqn:D;
    try discriminate.
  cbn [bind] in P.
  destruct (validate py_int (query_string_schema cls) true d) as [m'|es]
    eqn:V; [|discriminate].
  assert (E : m' = modifiers) by congruence. subst m'. clear P.
  apply validate_update_inl in V. destruct V as [M C]. subst modifiers.
  rewrite check_entries_get in G.
  destruct (Dict.get "filter" d) as [v|] eqn:S; [|discriminate].
  cbn [option_map] in G. apply get_In in S. apply C in S.
  assert (F : field_checker (checkers py_int true (query_string_schema cls))
                "filter" =
              check_rules py_int true (filter_rules (mc_schema cls)))
    by reflexivity.
  rewrite F in G, S.
  destruct (filter_rules_check _ _ S) as [o [E1 [E2 E3]]].
  rewrite E2 in G.
  exists (fst (check_entries
                 (field_checker (checkers py_int true (mc_schema cls))) o)).
  split; [congruence|].
  intros k I. rewrite check_entries_keys in I.
  unfold Dict.keys in I. apply in_map_iff in I.
  destruct I as [[k' x] [K I]]. simpl in K. subst k'.
  apply (proj1 (check_entries_clean _ o) E3) in I.
  now apply known_field in I.
Qed.

(** X4: [limit] and [page] reach the pipeline as integers: a parsed
    modifier set holds them as integers, a text [int] accepts is turned
    into its value, and a text [int] refuses is rejected with a
    [ValidationError] on that key. *)
Theorem limit_and_page_are_coerced (cls : modelcls) :
  (forall qs modifiers key v,
     parse cls qs = Return modifiers ->
     key = "limit" \/ key = "page" ->
     Dict.get key modifiers = Some v ->
     exists z, v = JInt z) /\
  (forall key text,
     key = "limit" \/ key = "page" ->
     (forall z, py_int text = Some z ->
        parse cls [(key, text)] = Return [(key, JInt z)]) /\
     (py_int text = None ->
      exists failures,
        parse cls [(key, text)] =
        Raise (ValidationError [(key, Failures failures)]))).
Proof.
  split.
  - intros qs modifiers key v. apply parse_integer_modifier.
  - intros key text K. split.
    + intros z E.
      destruct K; subst key; unfold _parse_query_string;
        cbn [to_dict filter decode foldM decode_item json_keys mem_string
             existsb String.eqb Ascii.eqb Bool.eqb orb bind Dict.set];
        unfold validate; cbn; rewrite E; reflexivity.
    + intros E.
      destruct K; subst key; unfold _parse_query_string;
        cbn [to_dict filter decode foldM decode_item json_keys mem_string
             existsb String.eqb Ascii.eqb Bool.eqb orb bind Dict.set];
        unfold validate; cbn; rewrite E; cbn;
        exists [CoercionFailed; BadType]; reflexivity.
Qed.

(** X5: the keys of a parsed [filter] modifier are fields of the model's
    schema, so when those fields are attributes of the model the filter
    stage of a parsed request raises nothing: it keeps the rows that equal
    the merged filters on every key. *)
Theorem parsed_filter_reaches_columns_only (cls : modelcls)
    (qs : list (string * string)) (modifiers : Dict.t jval) :
  parse cls qs = Return modifiers ->
  (forall f, Dict.get "filter" modifiers = Some f ->
     exists o, f = JObj o /\
       forall k, In k (Dict.keys o) -> Dict.mem k (mc_schema cls) = true) /\
  ((forall k, Dict.mem k (mc_schema cls) = true -> hasattr cls k = true) ->
   forall ctx db,
   exists filters,
     merged_filters (tenant_filters cls ctx) modifiers = Return filters /\
     _filter_modifier cls db filters =
     Return (filter (matches filters) db)).
Proof.
  intros P. split.
  - intros f. now apply (@parse_filter_valid cls qs modifiers f).
  - intros H ctx db. unfold merged_filters.
    assert (T : forall k, In k (Dict.keys (tenant_filters cls ctx)) ->
                          hasattr cls k = true).
    { unfold tenant_filters. destruct (hasattr cls "org_id") eqn:O.
      - intros k [E|[]]. simpl in E. now subst.
      - intros k []. }
    assert (B : forall filters,
               (forall k, In k (Dict.keys filters) -> hasattr cls k = true) ->
               _filter_modifier cls db filters =
               Return (filter (matches filters) db)).
    { intros filters A. unfold _filter_modifier, filter_by.
      destruct (find _ _) as [k|] eqn:F; auto.
      apply find_some in F. destruct F as [I N].
      rewrite (A _ I) in N. discriminate. }
    destruct (Dict.get "filter" modifiers) as [f|] eqn:G.
    + destruct (@parse_filter_valid cls qs modifiers f P G) as [o [E K]].
      subst f.
      eexists. split; [reflexivity|]. apply B.
      intros k I. apply keys_update_In in I. destruct I as [I|I]; auto.
    + eexists. split; [reflexivity|]. now apply B.
Qed.

End Modifiers.

Lemma tenant_rows_without_client_org_id_witness :
  row_get "org_id" (Sample.product 12 1 "Bolt") = JInt 1.
Proof.
  apply (@tenant_rows_without_client_org_id
           Sample.str Sample.compare Sample.Product (Sample.get [])
           [("filter", JObj [("name", JStr "Bolt")]); ("sort", JStr "-id")]
           Sample.products [Sample.product 12 1 "Bolt"]).
  - reflexivity.
  - intros o H. inversion H. reflexivity.
  - reflexivity.
  - now left.
Defined.

(** ** The sort stage *)

Section Sorting.

Variable sql_compare : jval -> jval -> comparison.

Lemma sort_columns_ok (cls : modelcls) (entries : list string)
    (acc : list sort_key) :
  (forall entry, In entry entries ->
     hasattr cls (if startswith "-" entry then tail1 entry else entry)
     = true) ->
  foldM (sort_column cls) entries acc =
  Return (acc ++ map (fun entry =>
                        (if startswith "-" entry then tail1 entry else entry,
                         startswith "-" entry)) entries).
Proof.
  revert acc. induction entries as [|e entries IH]; intros acc H.
  - simpl. now rewrite app_nil_r.
  - cbn [foldM map]. unfold sort_column at 1.
    pose proof (H e (or_introl eq_refl)) as A.
    destruct (getattr_present _ _ A) as [c [G [N _]]].
    destruct (startswith "-" e); rewrite G; cbn [bind]; rewrite N;
      rewrite IH by (intros x I; apply H; now right);
      now rewrite <- app_assoc.
Qed.

Lemma insert_row_perm (sorting : list sort_key) (r : row) (l : list row) :
  Permutation (insert_row sql_compare sorting r l) (r :: l).
Proof.
  induction l as [|x l IH]; simpl; auto.
  destruct (compare_rows sql_compare sorting r x); auto.
  rewrite IH. apply perm_swap.
Qed.

Lemma order_by_perm (sorting : list sort_key) (query : list row) :
  Permutation (order_by sql_compare query sorting) query.
Proof.
  unfold order_by. induction query as [|r query IH]; simpl; auto.
  rewrite insert_row_perm. now constructor.
Qed.

Lemma compare_rows_opp (sorting : list sort_key) (a b : row) :
  (forall x y, sql_compare y x = CompOpp (sql_compare x y)) ->
  compare_rows sql_compare sorting b a =
  CompOpp (compare_rows sql_compare sorting a b).
Proof.
  intros H. induction sorting as [|[name desc] sorting IH]; simpl; auto.
  rewrite (H (row_get name a) (row_get name b)).
  destruct (sql_compare (row_get name a) (row_get name b)), desc;
    simpl; auto.
Qed.

Lemma insert_row_sorted (sorting : list sort_key) (r : row) (l : list row) :
  (forall x y, sql_compare y x = CompOpp (sql_compare x y)) ->
  Sorted (fun a b => compare_rows sql_compare sorting a b <> Gt) l ->
  Sorted (fun a b => compare_rows sql_compare sorting a b <> Gt)
         (insert_row sql_compare sorting r l).
Proof.
  intros H S. induction S as [|x l S IH Hd]; simpl.
  - repeat constructor.
  - destruct (compare_rows sql_compare sorting r x) eqn:C.
    + repeat constructor; auto. congruence.
    + repeat constructor; auto. congruence.
    + constructor; auto.
      destruct l as [|y l]; simpl.
      * constructor. rewrite compare_rows_opp, C by assumption. discriminate.
      * destruct (compare_rows sql_compare sorting r y).
        -- constructor. rewrite compare_rows_opp, C by assumption.
           discriminate.
        -- constructor. rewrite compare_rows_opp, C by assumption.
           discriminate.
        -- constructor. now inversion Hd.
Qed.

(** X7: when every entry of the sort modifier names an attribute of the
    model, the sort stage orders the rows by the keys it reads from left to
    right, an entry that starts with ["-"] being descending; the result
    holds the same rows as before, and with a comparison of values that is
    antisymmetric every row is followed by one that is not smaller under
    the keys. *)
Theorem sort_stage_orders_rows (cls : modelcls) (query : list row)
    (sort : string) :
  (forall entry, In entry (split "," sort) ->
     hasattr cls (if startswith "-" entry then tail1 entry else entry)
     = true) ->
  let sorting :=
    map (fun entry =>
           (if startswith "-" entry then tail1 entry else entry,
            startswith "-" entry)) (split "," sort) in
  _sort_modifier sql_compare cls query (JStr sort) =
    Return (order_by sql_compare query sorting) /\
  Permutation (order_by sql_compare query sorting) query /\
  ((forall x y, sql_compare y x = CompOpp (sql_compare x y)) ->
   Sorted (fun a b => compare_rows sql_compare sorting a b <> Gt)
          (order_by sql_compare query sorting)).
Proof.
  intros H sorting. split; [|split].
  - unfold _sort_modifier. now rewrite (sort_columns_ok _ _ [] H).
  - apply order_by_perm.
  - intros A. unfold order_by.
    induction query as [|r query IH]; simpl.
    + constructor.
    + now apply insert_row_sorted.
Qed.

End Sorting.

Lemma sample_compare_antisym (x y : jval) :
  Sample.compare y x = CompOpp (Sample.compare x y).
Proof.
  destruct x, y; simpl; auto.
  - apply Z.compare_antisym.
  - apply String.compare_antisym.
Qed.

Lemma sort_stage_orders_rows_witness :
  _sort_modifier Sample.compare Sample.Product Sample.products
                 (JStr "org_id,-name") =
  Return [Sample.product 21 1 "Drill"; Sample.product 3 1 "Chisel";
          Sample.product 12 1 "Bolt"; Sample.product 1 1 "Anvil";
          Sample.product 5 2 "Explosive"] /\
  Sorted (fun a b =>
            compare_rows Sample.compare [("org_id", false); ("name", true)]
                         a b <> Gt)
         (order_by Sample.compare Sample.products
                   [("org_id", false); ("name", true)]).
Proof.
  destruct (@sort_stage_orders_rows Sample.compare Sample.Product
              Sample.products "org_id,-name") as [S [_ O]].
  - intros entry [E|[E|[]]]; subst; reflexivity.
  - split.
    + rewrite S. reflexivity.
    + apply O. intros x y. apply sample_compare_antisym.
Defined.

(** ** Deleting and updating an item *)




Lemma get_rev_nodup (V : Type) (k : string) (d : Dict.t V) :
  NoDup (Dict.keys d) -> Dict.get k (rev d) = Dict.get k d.
Proof.
  intros N. destruct (Dict.get k d) as [v|] eqn:G.
  - apply In_get.
    + unfold Dict.keys in *. rewrite map_rev. now apply NoDup_rev.
    + apply in_rev. rewrite rev_involutive. now apply get_In.
  - now apply get_rev_none.
Qed.

Section Items.

Variable json_loads : string -> option jval.
Variable py_int : string -> option Z.

Local Abbreviation item_view_ := (item_view json_loads py_int).




End Items.

(** ** Creating an item *)

Section Adding.

Variable json_loads : string -> option jval.
Variable py_int : string -> option Z.
Variable db_insert : table -> row -> outcome row.

Local Abbreviation add_view_func_ :=
  (add_view_func json_loads py_int db_insert).
Local Abbreviation item_view_ := (item_view json_loads py_int).
Local Abbreviation json_ := (json json_loads).

Lemma validate_inl (sch : Dict.t rules) (update : bool)
    (doc m : Dict.t jval) :
  validate py_int sch update doc = inl m ->
  m = fst (check_entries (field_checker (checkers py_int update sch)) doc) /\
  (forall k v, In (k, v) doc ->
     snd (field_checker (checkers py_int update sch) k v) = []).
Proof.
  unfold validate.
  destruct (check_entries _ doc) as [doc' es] eqn:C.
  destruct (es ++ _) eqn:A; [|discriminate].
  apply app_eq_nil in A. destruct A as [A _]. subst es.
  intros E. inversion E. subst. split; auto.
  apply check_entries_clean. now rewrite C.
Qed.

Lemma check_rules_integer (update : bool) (r : rules) (z : Z) :
  fst (check_rules py_int update r (JInt z)) = JInt z.
Proof.
  destruct r as [t n rq al co vs sc].
  destruct co, t as [[]|], vs, sc; reflexivity.
Qed.

(** The body of the add view once the payload is an object. *)
Lemma add_view_func_object (cls : modelcls) (schema : Dict.t rules)
    (is_org : bool) (kargs : Dict.t jval) (ctx : context) (db : table)
    (o : Dict.t jval) :
  request_is_json ctx = true ->
  json_loads (request_data ctx) = Some (JObj o) ->
  add_view_func_ cls schema is_org kargs ctx db =
  match validate py_int schema false
          (if is_org then Dict.set "org_id" (JInt (current_org_id ctx)) o
           else o) with
  | inr es => (Raise (validation_error es), db)
  | inl data =>
      match db_insert db (_import_data cls [] data) with
      | Return stored =>
          (Return (RetTuple (PModel cls stored) (SInt 201) None),
           db ++ [stored])
      | Abort s => (Abort s, db)
      | Raise e => (Raise e, db)
      end
  end.
Proof.
  intros J L. unfold add_view_func, get_json. rewrite J, L.
  cbn [negb bind].
  destruct is_org; cbn [setitem bind validate_payload];
    destruct (validate py_int schema false _); reflexivity.
Qed.

Lemma add_view_func_appends (cls : modelcls) (schema : Dict.t rules)
    (is_org : bool) (kargs : Dict.t jval) (ctx : context) (db db' : table)
    (ro : ret) :
  add_view_func_ cls schema is_org kargs ctx db = (Return ro, db') ->
  exists model stored,
    db_insert db model = Return stored /\
    ro = RetTuple (PModel cls stored) (SInt 201) None /\
    db' = db ++ [stored].
Proof.
  unfold add_view_func.
  destruct (get_json json_loads false ctx) as [payload| |];
    cbn [bind]; try discriminate.
  destruct (if is_org then _ else _) as [payload'| |];
    cbn [bind]; try discriminate.
  destruct (validate_payload py_int schema false payload') as [data| |];
    cbn [bind]; try discriminate.
  destruct (db_insert db (_import_data cls [] data)) as [stored| |] eqn:I;
    try discriminate.
  intros E. inversion E. eauto.
Qed.

(** X10: for a tenant-scoped model the add view writes the current tenant
    into the payload before it validates it, so the row handed to the
    database carries the current tenant whatever [org_id] the client sent;
    a payload that fails the validation raises the [ValidationError] and
    the table stays as it is. *)
Theorem create_injects_the_tenant (cls : modelcls) (schema : Dict.t rules)
    (kargs : Dict.t jval) (ctx : context) (db : table) (o : Dict.t jval) :
  request_is_json ctx = true ->
  json_loads (request_data ctx) = Some (JObj o) ->
  NoDup (Dict.keys o) ->
  mc_import_data cls = None ->
  match validate py_int schema false
          (Dict.set "org_id" (JInt (current_org_id ctx)) o) with
  | inr es =>
      add_view_func_ cls schema true kargs ctx db =
      (Raise (validation_error es), db)
  | inl data =>
      row_get "org_id" (Dict.update [] data) = JInt (current_org_id ctx) /\
      add_view_func_ cls schema true kargs ctx db =
      match db_insert db (Dict.update [] data) with
      | Return stored =>
          (Return (RetTuple (PModel cls stored) (SInt 201) None),
           db ++ [stored])
      | Abort s => (Abort s, db)
      | Raise e => (Raise e, db)
      end
  end.
Proof.
  intros J L N I.
  rewrite (@add_view_func_object cls schema true kargs ctx db o J L).
  destruct (validate py_int schema false _) as [data|es] eqn:V;
    [|reflexivity].
  split.
  - apply validate_inl in V. destruct V as [D C].
    assert (K : NoDup (Dict.keys data)).
    { subst data. rewrite check_entries_keys. now apply keys_set. }
    unfold row_get. rewrite get_update, get_rev_nodup by assumption.
    subst data. rewrite check_entries_get, get_set_same.
    cbn [option_map].
    assert (F : In ("org_id", JInt (current_org_id ctx))
                   (Dict.set "org_id" (JInt (current_org_id ctx)) o)).
    { apply get_In. apply get_set_same. }
    apply C in F. unfold field_checker in *.
    destruct (Dict.get "org_id" (checkers py_int false schema)) as [chk|]
      eqn:G; [|discriminate].
    unfold checkers in G.
    assert (R : exists r, chk = check_rules py_int false r).
    { clear - G. induction schema as [|[k r] sch IH];
        cbn [map Dict.get fst snd] in G; [discriminate|].
      destruct (String.eqb "org_id" k); [|now apply IH].
      inversion G. eauto. }
    destruct R as [r R]. subst chk. now rewrite check_rules_integer.
  - unfold _import_data, import_data. now rewrite I.
Qed.

(** X11: the row the add view returns is a row of the table afterwards,
    appended after the rows that were there; a [GET] of the item view with
    identifier values this row has, and no earlier row has, returns it. *)
Theorem created_item_is_found (cls : modelcls) (schema : Dict.t rules)
    (is_org : bool) (kargs_add : Dict.t jval) (ctx : context)
    (db db' : table) (stored : row) (ident_prop : list string)
    (kargs : Dict.t jval) (ctx' : context) :
  add_view_func_ cls schema is_org kargs_add ctx db =
    (Return (RetTuple (PModel cls stored) (SInt 201) None), db') ->
  request_method ctx' = "GET" ->
  (forall p, In p ident_prop -> hasattr cls p = true) ->
  (is_org = true -> hasattr cls "org_id" = true) ->
  matches (item_ident ident_prop is_org kargs ctx') stored = true ->
  (forall r, In r db ->
     matches (item_ident ident_prop is_org kargs ctx') r = false) ->
  db' = db ++ [stored] /\
  item_view_ cls ident_prop schema is_org kargs ctx' db' =
    (Return (RetObj (PModel cls stored)), db').
Proof.
  intros A G H O S U.
  apply add_view_func_appends in A.
  destruct A as [model [stored' [_ [E D]]]].
  inversion E. subst stored' db'. split; [reflexivity|].
  unfold item_view. rewrite item_filter_by by assumption.
  rewrite filter_app, (filter_none _ _ U). cbn [filter app].
  rewrite S, G. reflexivity.
Qed.

(** X12: a [POST] with a JSON object that passes the validation and that
    the database stores is answered with status 201 and the export of the
    stored row; the table gains that row at its end. *)
Theorem create_responds_201 (cls : modelcls) (schema : Dict.t rules)
    (is_org : bool) (kargs : Dict.t jval) (ctx : context) (db : table)
    (o data : Dict.t jval) (stored : row) :
  request_method ctx = "POST" ->
  request_is_json ctx = true ->
  json_loads (request_data ctx) = Some (JObj o) ->
  validate py_int schema false
    (if is_org then Dict.set "org_id" (JInt (current_org_id ctx)) o else o)
  = inl data ->
  db_insert db (_import_data cls [] data) = Return stored ->
  json_ (add_view_func_ cls schema is_org kargs) ctx db =
  (Return {| status_code := 201; resp_headers := [];
             body := export_payload (PModel cls stored) |},
   db ++ [stored]).
Proof.
  intros M J L V I. unfold json, call. rewrite M, J.
  cbn [String.eqb Ascii.eqb Bool.eqb negb].
  unfold get_json at 1. rewrite J, L. cbn [negb].
  rewrite (@add_view_func_object cls schema is_org kargs ctx db o J L).
  rewrite V, I. reflexivity.
Qed.

(** X13: the decorator lets every JSON body but [null] through; a [POST]
    whose body is JSON and no object (an array, a number, a text, a
    boolean) raises in the add view, a [TypeError] for a tenant-scoped
    model and the validator's [DocumentError] otherwise, and stores
    nothing. *)
Theorem create_with_non_object_body_raises (cls : modelcls)
    (schema : Dict.t rules) (is_org : bool) (kargs : Dict.t jval)
    (ctx : context) (db : table) (j : jval) :
  request_method ctx = "POST" ->
  request_is_json ctx = true ->
  json_loads (request_data ctx) = Some j ->
  j <> JNull ->
  (forall o, j <> JObj o) ->
  json_ (add_view_func_ cls schema is_org kargs) ctx db =
  (Raise (if is_org then TypeError else DocumentError), db).
Proof.
  intros M J L N O. unfold json, call, add_view_func. rewrite M, J.
  cbn [String.eqb Ascii.eqb Bool.eqb negb].
  unfold get_json. rewrite J, L. cbn [negb bind].
  destruct j as [|b|z|s|l|o]; try (destruct is_org; reflexivity).
  - congruence.
  - exfalso. now apply (O o).
Qed.

End Adding.

(** ** Registered endpoints *)

Lemma add_resource_registers (cls : modelcls) (base_url : option string)
    (ident : option pyarg) (methods : option (Dict.t (list string)))
    (secure : bool) (resource_name parent_resource : option string)
    (rules : list url_rule) :
  add_resource cls base_url ident methods secure resource_name
               parent_resource = Return rules ->
  let table_name := mc_tablename cls in
  let auth parent :=
    if secure then Some (or_else resource_name table_name, parent)
    else None in
  let list_parent :=
    match parent_resource with
    | Some p =>
        if String.eqb p ""
        then if hasattr cls "org_id" then Some "org" else None
        else Some p
    | None => if hasattr cls "org_id" then Some "org" else None
    end in
  let list_methods := methods_of "list" ["GET"; "POST"] methods in
  let item_methods := methods_of "item" ["GET"; "PATCH"; "DELETE"] methods in
  map (fun u => (endpoint u, rule_view u, rule_methods u, guard u)) rules =
  (if mem_string "GET" list_methods
   then [(("list_" ++ table_name)%string, ListView, None, auth list_parent)]
   else [])
  ++ (if mem_string "POST" list_methods
      then [(("add_" ++ table_name)%string, AddView, Some ["POST"],
             auth None)]
      else [])
  ++ (if mem_string "GET" item_methods
      then [(("get_" ++ table_name)%string, ItemView, Some ["GET"],
             auth None)]
      else [])
  ++ (if mem_string "PATCH" item_methods
      then [(("update_" ++ table_name)%string, ItemView, Some ["PATCH"],
             auth None)]
      else [])
  ++ (if mem_string "DELETE" item_methods
      then [(("delete_" ++ table_name)%string, ItemView, Some ["DELETE"],
             auth None)]
      else []).
Proof.
  unfold add_resource.
  destruct (_generate_route_rules _ cls _ _) as [[list_rule item_rule]| |];
    cbn [bind]; try discriminate.
  intros E. inversion E. clear E. cbv zeta.
  rewrite !map_app.
  repeat match goal with
         | |- context [mem_string ?m ?l] => destruct (mem_string m l)
         end;
    destruct secure; reflexivity.
Qed.

(** X14: with [secure] unset no endpoint is guarded; otherwise every
    endpoint is guarded for the resource name (the table name when none is
    given), and only the list endpoint's guard gets a parent resource, the
    one given or ["org"] for a tenant-scoped model: the guards of the add
    and item endpoints never carry one, also when one is given. *)
Theorem only_the_list_guard_has_a_parent (cls : modelcls)
    (base_url : option string) (ident : option pyarg)
    (methods : option (Dict.t (list string))) (secure : bool)
    (resource_name parent_resource : option string)
    (rules : list url_rule) :
  add_resource cls base_url ident methods secure resource_name
               parent_resource = Return rules ->
  forall u, In u rules ->
    (secure = false -> guard u = None) /\
    (secure = true ->
     exists parent,
       guard u = Some (or_else resource_name (mc_tablename cls), parent) /\
       (rule_view u <> ListView -> parent = None) /\
       (rule_view u = ListView ->
        parent = match parent_resource with
                 | Some p =>
                     if String.eqb p ""
                     then if hasattr cls "org_id" then Some "org" else None
                     else Some p
                 | None => if hasattr cls "org_id" then Some "org" else None
                 end)).
Proof.
  intros A u I.
  apply (in_map (fun u => (endpoint u, rule_view u, rule_methods u, guard u)))
    in I.
  rewrite (add_resource_registers _ _ _ _ _ _ _ A) in I.
  repeat (apply in_app_or in I; destruct I as [I|I]);
    match type of I with
    | In _ (if ?b then _ else _) => destruct b
    end;
    simpl in I; try contradiction;
    destruct I as [I|I]; try contradiction;
    injection I as E1 E2 E3 E4; rewrite <- E2, <- E4;
    (split; [intros S; now rewrite S|]);
    intros S; rewrite S; eexists; (split; [reflexivity|]);
    split; congruence.
Qed.

(** X15: an endpoint is registered exactly when its method is among the
    configured methods of its rule (all of them by default), under the
    name of its verb and the table; the names registered are pairwise
    distinct. *)
Theorem endpoints_follow_the_methods (cls : modelcls)
    (base_url : option string) (ident : option pyarg)
    (methods : option (Dict.t (list string))) (secure : bool)
    (resource_name parent_resource : option string)
    (rules : list url_rule) :
  add_resource cls base_url ident methods secure resource_name
               parent_resource = Return rules ->
  let table_name := mc_tablename cls in
  let list_methods := methods_of "list" ["GET"; "POST"] methods in
  let item_methods := methods_of "item" ["GET"; "PATCH"; "DELETE"] methods in
  let names := map endpoint rules in
  (In ("list_" ++ table_name)%string names <->
   mem_string "GET" list_methods = true) /\
  (In ("add_" ++ table_name)%string names <->
   mem_string "POST" list_methods = true) /\
  (In ("get_" ++ table_name)%string names <->
   mem_string "GET" item_methods = true) /\
  (In ("update_" ++ table_name)%string names <->
   mem_string "PATCH" item_methods = true) /\
  (In ("delete_" ++ table_name)%string names <->
   mem_string "DELETE" item_methods = true) /\
  NoDup names /\
  (methods = None -> length names = 5%nat).
Proof.
  intros A table_name list_methods item_methods names.
  assert (N : names =
              map (fun q : string * view_func * option (list string)
                           * option (string * option string) =>
                     fst (fst (fst q)))
                  (map (fun u => (endpoint u, rule_view u, rule_methods u,
                                  guard u)) rules)).
  { unfold names. rewrite map_map. reflexivity. }
  rewrite (add_resource_registers _ _ _ _ _ _ _ A) in N.
  fold table_name list_methods item_methods in N.
  assert (D : methods = None ->
              mem_string "GET" list_methods = true /\
              mem_string "POST" list_methods = true /\
              mem_string "GET" item_methods = true /\
              mem_string "PATCH" item_methods = true /\
              mem_string "DELETE" item_methods = true).
  { intros E. unfold list_methods, item_methods. rewrite E.
    repeat split; reflexivity. }
  rewrite N. clear N.
  destruct (mem_string "GET" list_methods),
           (mem_string "POST" list_methods),
           (mem_string "GET" item_methods),
           (mem_string "PATCH" item_methods),
           (mem_string "DELETE" item_methods);
    cbn [map app fst];
    (split; [|split; [|split; [|split; [|split; [|split]]]]]);
    try (simpl; intuition discriminate);
    try (repeat constructor; simpl; intuition discriminate);
    try (intros E; destruct (D E) as [D1 [D2 [D3 [D4 D5]]]];
         try discriminate; reflexivity).
Qed.

(** X16: the identifier option is used only when it is a non-empty name:
    an empty name falls back to the primary key; a name that is no
    attribute of the model makes the registration raise an
    [AttributeError] before any rule is registered; and with no identifier
    column at all the item rule is the list rule. *)
Theorem route_generation_edge_cases (cls : modelcls)
    (base_url : option string) (methods : option (Dict.t (list string)))
    (secure : bool) (resource_name parent_resource : option string) :
  add_resource cls base_url (Some (ArgStr "")) methods secure resource_name
               parent_resource =
  add_resource cls base_url None methods secure resource_name
               parent_resource /\
  (forall name,
     name <> EmptyString -> hasattr cls name = false ->
     add_resource cls base_url (Some (ArgStr name)) methods secure
                  resource_name parent_resource =
     Raise (AttributeError name)) /\
  (forall base is_org,
     _generate_route_rules base cls [] is_org =
     Return ((if is_org then "/orgs/<aud:orgname>/" else "/") ++ base,
             (if is_org then "/orgs/<aud:orgname>/" else "/") ++ base)%string).
Proof.
  split; [reflexivity|]. split.
  - intros name N H. unfold add_resource. cbn [arg_truthy].
    destruct (String.eqb_spec name ""); [congruence|]. cbn [negb].
    unfold _generate_route_rules. cbn [foldM getattr_arg].
    rewrite (getattr_absent _ _ H). reflexivity.
  - intros base is_org. unfold _generate_route_rules.
    cbn [foldM bind fold_left].
    replace (if is_org then "/orgs/<aud:orgname>/" ++ base
             else "/" ++ base)%string
      with ((if is_org then "/orgs/<aud:orgname>/" else "/") ++ base)%string
      by now destruct is_org.
    now rewrite drop_last_char.
Qed.

(** * The further properties on the sample data *)

Lemma list_endpoint_response_witness :
  exists params,
    select_params [("limit", JInt 2); ("page", JInt 2)] = Return params /\
    list_endpoint Sample.loads Sample.int Sample.str Sample.compare
      Sample.Product [] (Sample.get [("limit", "2"); ("page", "2")])
      Sample.products =
    (Return {| status_code := 200;
               resp_headers := [("X-Total", JInt 4); ("X-Page", JInt 2)];
               body := export_data [Sample.product 3 1 "Chisel";
                                    Sample.product 21 1 "Drill"] params |},
     Sample.products).
Proof.
  apply (@list_endpoint_response
           Sample.loads Sample.int Sample.str Sample.compare
           Sample.Product [] (Sample.get [("limit", "2"); ("page", "2")])
           Sample.products [("limit", JInt 2); ("page", JInt 2)]
           [Sample.product 1 1 "Anvil"; Sample.product 12 1 "Bolt";
            Sample.product 3 1 "Chisel"; Sample.product 21 1 "Drill"]).
  - discriminate.
  - reflexivity.
  - reflexivity.
  - simpl. lia.
  - simpl. lia.
  - right. discriminate.
Defined.

Lemma list_endpoint_aborts_out_of_range_witness :
  list_endpoint Sample.loads Sample.int Sample.str Sample.compare
    Sample.Product [] (Sample.get [("page", "3")]) Sample.products =
  (Abort 404, Sample.products).
Proof.
  apply (@list_endpoint_aborts_out_of_range
           Sample.loads Sample.int Sample.str Sample.compare
           Sample.Product [] (Sample.get [("page", "3")])
           Sample.products [("page", JInt 3)]
           [Sample.product 1 1 "Anvil"; Sample.product 12 1 "Bolt";
            Sample.product 3 1 "Chisel"; Sample.product 21 1 "Drill"]).
  - discriminate.
  - reflexivity.
  - reflexivity.
  - right. right. unfold max_offset. simpl. repeat split; lia.
Defined.

Lemma collection_without_query_string_witness :
  Sample.list_products (Sample.get []) Sample.products =
  Return
    (RetTuple
       (PValue
          (JList (map (export_row [] [])
                      (firstn 30 [Sample.product 1 1 "Anvil";
                                  Sample.product 12 1 "Bolt";
                                  Sample.product 3 1 "Chisel";
                                  Sample.product 21 1 "Drill"]))))
       (SHeaders [("X-Total", JInt 4); ("X-Page", JInt 1)])
       None).
Proof.
  exact (@collection_without_query_string
           Sample.loads Sample.int Sample.str Sample.compare 30 100
           unit (fun _ => Sample.Product) tt (Sample.get []) Sample.products
           eq_refl).
Defined.

Lemma parsed_filter_reaches_columns_only_witness :
  exists filters,
    merged_filters (tenant_filters Sample.Product (Sample.get []))
                   [("filter", JObj [("org_id", JInt 2)])] = Return filters /\
    _filter_modifier Sample.Product Sample.products filters =
    Return (filter (matches filters) Sample.products).
Proof.
  apply (proj2 (@parsed_filter_reaches_columns_only
                  Sample.loads Sample.int Sample.Product
                  [("filter", Sample.text_org2)]
                  [("filter", JObj [("org_id", JInt 2)])] eq_refl)).
  intros k H. unfold Dict.mem in H. simpl in H.
  destruct (String.eqb_spec k "id"); [subst; reflexivity|].
  destruct (String.eqb_spec k "org_id"); [subst; reflexivity|].
  destruct (String.eqb_spec k "name"); [subst; reflexivity|].
  discriminate.
Defined.



Lemma create_injects_the_tenant_witness :
  row_get "org_id"
    (Dict.update [] [("name", JStr "Forge"); ("org_id", JInt 1)]) = JInt 1 /\
  Sample.add_product (Sample.with_body "POST" Sample.text_forge)
                     Sample.products =
  (Return (RetTuple
             (PModel Sample.Product
                [("name", JStr "Forge"); ("org_id", JInt 1);
                 ("id", JInt 22)])
             (SInt 201) None),
   Sample.products ++ [[("name", JStr "Forge"); ("org_id", JInt 1);
                        ("id", JInt 22)]]).
Proof.
  apply (@create_injects_the_tenant
           Sample.loads_body Sample.int Sample.insert Sample.Product
           (mc_schema Sample.Product) []
           (Sample.with_body "POST" Sample.text_forge) Sample.products
           [("name", JStr "Forge"); ("org_id", JInt 2)]).
  - reflexivity.
  - reflexivity.
  - repeat constructor; simpl; intuition discriminate.
  - reflexivity.
Defined.

Lemma created_item_is_found_witness :
  Sample.products ++ [[("name", JStr "Forge"); ("org_id", JInt 1);
                       ("id", JInt 22)]] =
  Sample.products ++ [[("name", JStr "Forge"); ("org_id", JInt 1);
                       ("id", JInt 22)]] /\
  item_view Sample.loads_body Sample.int Sample.Product ["id"]
            (mc_schema Sample.Product) true [("id", JInt 22)]
            (Sample.get [])
            (Sample.products ++ [[("name", JStr "Forge"); ("org_id", JInt 1);
                                  ("id", JInt 22)]]) =
  (Return (RetObj (PModel Sample.Product
                     [("name", JStr "Forge"); ("org_id", JInt 1);
                      ("id", JInt 22)])),
   Sample.products ++ [[("name", JStr "Forge"); ("org_id", JInt 1);
                        ("id", JInt 22)]]).
Proof.
  apply (@created_item_is_found
           Sample.loads_body Sample.int Sample.insert Sample.Product
           (mc_schema Sample.Product) true []
           (Sample.with_body "POST" Sample.text_forge) Sample.products
           (Sample.products ++ [[("name", JStr "Forge"); ("org_id", JInt 1);
                                 ("id", JInt 22)]])
           [("name", JStr "Forge"); ("org_id", JInt 1); ("id", JInt 22)]
           ["id"] [("id", JInt 22)] (Sample.get [])).
  - reflexivity.
  - reflexivity.
  - intros p [E|[]]. subst. reflexivity.
  - reflexivity.
  - reflexivity.
  - intros r I. simpl in I.
    destruct I as [E|[E|[E|[E|[E|[]]]]]]; subst; reflexivity.
Defined.

Lemma create_responds_201_witness :
  json Sample.loads_body Sample.add_product
       (Sample.with_body "POST" Sample.text_forge) Sample.products =
  (Return {| status_code := 201; resp_headers := [];
             body := JObj [("name", JStr "Forge"); ("org_id", JInt 1);
                           ("id", JInt 22)] |},
   Sample.products ++ [[("name", JStr "Forge"); ("org_id", JInt 1);
                        ("id", JInt 22)]]).
Proof.
  apply (@create_responds_201
           Sample.loads_body Sample.int Sample.insert Sample.Product
           (mc_schema Sample.Product) true []
           (Sample.with_body "POST" Sample.text_forge) Sample.products
           [("name", JStr "Forge"); ("org_id", JInt 2)]
           [("name", JStr "Forge"); ("org_id", JInt 1)]
           [("name", JStr "Forge"); ("org_id", JInt 1); ("id", JInt 22)]);
    reflexivity.
Defined.

Lemma create_with_non_object_body_raises_witness :
  json Sample.loads_body Sample.add_product
       (Sample.with_body "POST" Sample.text_array) Sample.products =
  (Raise TypeError, Sample.products).
Proof.
  apply (@create_with_non_object_body_raises
           Sample.loads_body Sample.int Sample.insert Sample.Product
           (mc_schema Sample.Product) true []
           (Sample.with_body "POST" Sample.text_array) Sample.products
           (JList [JInt 1; JInt 2])).
  - reflexivity.
  - reflexivity.
  - reflexivity.
  - discriminate.
  - intros o. discriminate.
Defined.

Lemma only_the_list_guard_has_a_parent_witness :
  exists rules,
    add_resource Sample.OrderLine None None None true None (Some "company")
    = Return rules /\
    forall u, In u rules ->
      exists parent,
        guard u = Some ("order_line", parent) /\
        (rule_view u <> ListView -> parent = None) /\
        (rule_view u = ListView -> parent = Some "company").
Proof.
  eexists. split; [reflexivity|].
  intros u I.
  exact (proj2 (@only_the_list_guard_has_a_parent
                  Sample.OrderLine None None None true None (Some "company")
                  _ eq_refl u I) eq_refl).
Defined.

Lemma endpoints_follow_the_methods_witness :
  exists rules,
    add_resource Sample.OrderLine None None
                 (Some [("item", ["GET"])]) true None None = Return rules /\
    In "list_order_line" (map endpoint rules) /\
    In "get_order_line" (map endpoint rules) /\
    ~ In "delete_order_line" (map endpoint rules).
Proof.
  eexists. split; [reflexivity|].
  destruct (@endpoints_follow_the_methods
              Sample.OrderLine None None (Some [("item", ["GET"])]) true
              None None _ eq_refl) as [L [_ [G [_ [D _]]]]].
  split; [apply L; reflexivity|].
  split; [apply G; reflexivity|].
  intros H. apply D in H. discriminate H.
Defined.
